(** * drvAsynIsegVds: the asyn port driver of the ISEG VDS high-voltage module

    A shallow embedding of [drvAsynIsegVdsApp/src/drvAsynIsegVds.cpp].

    The driver sits between two libraries that are not part of it:
    - the asyn framework ([asynPortDriver], its parameter library and
      [getAddress]), and
    - the VME access library ([VmeMaster]).
    Both are kept abstract, as interfaces (type classes) whose operations
    are state-passing functions.  The driver itself (the two command
    tables, the constructor and the four entry points) is translated from
    the C++ text.  Every VME access is appended to a log carried in the
    state, so that statements about which accesses a call performs can be
    made. *)

From Stdlib Require Import ZArith List String Bool Lia.
From Stdlib Require Import Floats.SpecFloat.
From stdpp Require Import base option gmap.
Import ListNotations.

Local Open Scope string_scope.
Local Open Scope Z_scope.

(** ** Plain data of the asyn and EPICS headers *)

(** [asynStatus] of asynDriver.h followed by the parameter-library
    statuses that the driver casts to [asynStatus]. *)
Inductive asynStatus : Type :=
| asynSuccess | asynTimeout | asynOverflow | asynError
| asynDisconnected | asynDisabled
| asynParamAlreadyExists | asynParamNotFound | asynParamWrongType
| asynParamBadIndex | asynParamUndefined.

(** The C++ test [if( status )]: any status but [asynSuccess]. *)
Definition failed (status : asynStatus) : bool :=
  match status with
  | asynSuccess => false
  | _ => true
  end.

Inductive asynParamType : Type :=
| asynParamUInt32Digital | asynParamFloat64.

Inductive traceMask : Type :=
| ASYN_TRACE_ERROR | ASYN_TRACEIO_DEVICE | ASYN_TRACEIO_DRIVER.

Inductive interfaceMask : Type :=
| asynCommonMask | asynInt32Mask | asynUInt32DigitalMask
| asynFloat64Mask | asynDrvUserMask.

Inductive asynFlag : Type := ASYN_CANBLOCK | ASYN_MULTIDEVICE.

Record epicsTimeStamp : Type := { secPastEpoch : Z; nsec : Z }.

(** The integer members [P_...] of the class, one per created parameter. *)
Inductive member : Type :=
| P_ModStatus | P_ModEvtStatus | P_ModEvtMask | P_ModCtrl
| P_ModEvtChanStatus | P_ModEvtChanMask | P_ModEvtGrpStatus | P_ModEvtGrpMask
| P_VRamp | P_CRamp | P_VMax | P_IMax
| P_SupplyP5 | P_SupplyP12 | P_SupplyN12 | P_Temperature
| P_ChanStatus | P_ChanEvtStatus | P_ChanEvtMask | P_ChanCtrl
| P_ChanVset | P_ChanIset | P_ChanVmom | P_ChanImom
| P_ChanVBounds | P_ChanIBounds.

#[global] Instance member_eq_dec : EqDecision member.
Proof. solve_decision. Defined.

(** 32-bit unsigned arithmetic of [epicsUInt32]. *)
Definition u32 (x : Z) : Z := x mod 2 ^ 32.

(** [static const char *driverName]. *)
Definition driverName : string := "drvAsynIsegVdsDriver".

(** [static const epicsUInt32 chanAddr[8]]. *)
Definition chanAddr : list Z :=
  [ 0x0100; 0x0140; 0x0180; 0x01c0; 0x0200; 0x0240; 0x0280; 0x02c0 ].

(** [chanAddr[addr]] for an [int addr]; [None] is an access outside the
    array, which C++ leaves undefined. *)
Definition chanAddr_at (addr : Z) : option Z :=
  if addr <? 0 then None else chanAddr !! Z.to_nat addr.

(** ** The libraries the driver is built on *)

(** Floating point, as far as the driver uses it.  [float32_of_bits] and
    [bits_of_float32] are the two directions of the [float_t] union. *)
Class FloatOps : Type := {
  epicsFloat32 : Type;
  epicsFloat64 : Type;
  float32_of_bits : Z -> epicsFloat32;
  bits_of_float32 : epicsFloat32 -> Z;
  float32_of_float64 : epicsFloat64 -> epicsFloat32;
  float64_of_float32 : epicsFloat32 -> epicsFloat64;
  float64_mul : epicsFloat64 -> epicsFloat64 -> epicsFloat64;
  float64_1e6 : epicsFloat64;
  float64_1em6 : epicsFloat64
}.

(** The VME access library.  [VmeMaster] is the instance behind the
    [_vme] pointer, [VmeBus] whatever state the hardware is in; an access
    either delivers or throws a [VmeException]. *)
Class VmeMasterLib : Type := {
  VmeMaster : Type;
  VmeBus : Type;
  VmeException : Type;
  what : VmeException -> string;
  readRegisterA16D32 : VmeMaster -> Z -> Z -> VmeBus -> (VmeException + Z) * VmeBus;
  writeRegisterA16D32 : VmeMaster -> Z -> Z -> Z -> VmeBus -> option VmeException * VmeBus
}.

Section Messages.
Context `{FO : FloatOps}.

(** An argument of a printf-style call, and the call itself: the format
    string with its arguments, not rendered. *)
Inductive fmtArg : Type :=
| ArgS (s : string)
| ArgD (n : Z)
| ArgStatus (status : asynStatus)
| ArgF (x : epicsFloat64).

Record message : Type := { fmt : string; args : list fmtArg }.

(** [asynUser], restricted to the members the driver touches;
    [device_addr] stands for the connection data asynManager keeps for
    the user and hands out through [getAddr]. *)
Record asynUser : Type := {
  reason : Z;
  device_addr : Z;
  errorMessage : message;
  timestamp : epicsTimeStamp
}.

Definition set_errorMessage (pasynUser : asynUser) (m : message) : asynUser :=
  {| reason := reason pasynUser; device_addr := device_addr pasynUser;
     errorMessage := m; timestamp := timestamp pasynUser |}.

Definition set_timestamp (pasynUser : asynUser) (t : epicsTimeStamp) : asynUser :=
  {| reason := reason pasynUser; device_addr := device_addr pasynUser;
     errorMessage := errorMessage pasynUser; timestamp := t |}.

(** [typedef union { epicsFloat32 fval; epicsUInt32 ival; } float_t]:
    the member stored last, read back through either member. *)
Inductive float_t : Type :=
| stored_fval (f : epicsFloat32)
| stored_ival (i : Z).

Definition fval (u : float_t) : epicsFloat32 :=
  match u with
  | stored_fval f => f
  | stored_ival i => float32_of_bits i
  end.

Definition ival (u : float_t) : Z :=
  match u with
  | stored_fval f => bits_of_float32 f
  | stored_ival i => i
  end.

(** [u.fval *= c] for a [double] constant [c]: the product is formed in
    double precision and converted back on assignment. *)
Definition fval_mul_assign (u : float_t) (c : epicsFloat64) : float_t :=
  stored_fval (float32_of_float64 (float64_mul (float64_of_float32 (fval u)) c)).
End Messages.

(** The part of [asynPortDriver] the driver calls.  Pointer arguments
    that receive a result ([int *address], [int *index], [*value]) are
    passed as the old content and returned as the new one. *)
Class AsynPortDriverLib `{FO : FloatOps} : Type := {
  paramList : Type;
  newParamList : Z -> Z -> paramList;
  createParam : string -> asynParamType -> Z -> paramList -> asynStatus * Z * paramList;
  getAddress : Z -> asynUser -> Z -> asynStatus * Z;
  setUIntDigitalParam : Z -> Z -> Z -> Z -> paramList -> asynStatus * paramList;
  getUIntDigitalParam : Z -> Z -> Z -> Z -> paramList -> asynStatus * Z;
  setDoubleParam : Z -> Z -> epicsFloat64 -> paramList -> asynStatus * paramList;
  getDoubleParam : Z -> Z -> epicsFloat64 -> paramList -> asynStatus * epicsFloat64;
  callParamCallbacks : Z -> Z -> paramList -> asynStatus * paramList
}.

(** What drvAsynIsegVds.h supplies: the parameter name macros
    [P_ISEGVDS_..._STRING] (here by the member they name) and the size of
    the parameter table. *)
Class Header : Type := {
  paramString : member -> string;
  NUM_ISEGVDS_PARAMS : Z
}.

(** ** The driver *)

Section Driver.
Context `{FO : FloatOps} `{VL : VmeMasterLib} `{AL : !AsynPortDriverLib} `{HD : Header}.

(** The [asynPortDriver] base sub-object: what its constructor is given
    and the parameter library. *)
Record asynPortDriver : Type := {
  portName : string;
  maxAddr : Z;
  paramTableSize : Z;
  interfaceMasks : list interfaceMask;
  interruptMasks : list interfaceMask;
  asynFlags : list asynFlag;
  autoConnect : Z;
  priority : Z;
  stackSize : Z;
  params : paramList
}.

(** The driver object.  [idx] holds the [int] members [P_ModStatus] ...
    [P_ChanIBounds], by name: the C++ [function == P_VMax] is
    [function =? idx d P_VMax] here. *)
Record drvAsynIsegVds : Type := {
  base : asynPortDriver;
  _deviceName : string;
  _base : Z;
  _vme : option VmeMaster;
  idx : member -> Z;
  _modcmds : gmap Z Z;
  _chancmds : gmap Z Z
}.

(** One access to the bus, as logged. *)
Inductive VmeAccess : Type :=
| ReadA16D32 (vme : VmeMaster) (base_addr : Z) (vmeAddr : Z)
| WriteA16D32 (vme : VmeMaster) (base_addr : Z) (vmeAddr : Z) (data : Z).

Definition access_vme (a : VmeAccess) : VmeMaster :=
  match a with ReadA16D32 v _ _ => v | WriteA16D32 v _ _ _ => v end.
Definition access_base (a : VmeAccess) : Z :=
  match a with ReadA16D32 _ b _ => b | WriteA16D32 _ b _ _ => b end.
Definition access_addr (a : VmeAccess) : Z :=
  match a with ReadA16D32 _ _ x => x | WriteA16D32 _ _ x _ => x end.

(** What a call runs in: the driver object, the hardware, the log of
    accesses made so far, the output of [asynPrint] and the time stamp
    the port currently reports. *)
Record State : Type := {
  this : drvAsynIsegVds;
  bus : VmeBus;
  accesses : list VmeAccess;
  trace : list (traceMask * message);
  portTimeStamp : epicsTimeStamp
}.

Definition with_params (b : asynPortDriver) (ps : paramList) : asynPortDriver :=
  {| portName := portName b; maxAddr := maxAddr b;
     paramTableSize := paramTableSize b;
     interfaceMasks := interfaceMasks b; interruptMasks := interruptMasks b;
     asynFlags := asynFlags b; autoConnect := autoConnect b;
     priority := priority b; stackSize := stackSize b;
     params := ps |}.

(** The driver object after a base-class call changed the parameter
    library. *)
Definition driver_with_params (d : drvAsynIsegVds) (ps : paramList) : drvAsynIsegVds :=
  {| base := with_params (base d) ps;
     _deviceName := _deviceName d; _base := _base d; _vme := _vme d;
     idx := idx d; _modcmds := _modcmds d; _chancmds := _chancmds d |}.

Definition set_params (s : State) (ps : paramList) : State :=
  {| this := driver_with_params (this s) ps;
     bus := bus s; accesses := accesses s; trace := trace s;
     portTimeStamp := portTimeStamp s |}.

Definition asynPrint (s : State) (mask : traceMask) (m : message) : State :=
  {| this := this s; bus := bus s; accesses := accesses s;
     trace := trace s ++ [(mask, m)]; portTimeStamp := portTimeStamp s |}.

(** [asynPortDriver::getTimeStamp]. *)
Definition getTimeStamp (s : State) : epicsTimeStamp := portTimeStamp s.

(** *** Construction *)

(** The [createParam] calls, in order. *)
Definition paramDecls : list (member * asynParamType) :=
  [ (P_ModStatus, asynParamUInt32Digital);
    (P_ModEvtStatus, asynParamUInt32Digital);
    (P_ModEvtMask, asynParamUInt32Digital);
    (P_ModCtrl, asynParamUInt32Digital);
    (P_ModEvtChanStatus, asynParamUInt32Digital);
    (P_ModEvtChanMask, asynParamUInt32Digital);
    (P_ModEvtGrpStatus, asynParamUInt32Digital);
    (P_ModEvtGrpMask, asynParamUInt32Digital);
    (P_VRamp, asynParamFloat64);
    (P_CRamp, asynParamFloat64);
    (P_VMax, asynParamFloat64);
    (P_IMax, asynParamFloat64);
    (P_SupplyP5, asynParamFloat64);
    (P_SupplyP12, asynParamFloat64);
    (P_SupplyN12, asynParamFloat64);
    (P_Temperature, asynParamFloat64);
    (P_ChanStatus, asynParamUInt32Digital);
    (P_ChanEvtStatus, asynParamUInt32Digital);
    (P_ChanEvtMask, asynParamUInt32Digital);
    (P_ChanCtrl, asynParamUInt32Digital);
    (P_ChanVset, asynParamFloat64);
    (P_ChanIset, asynParamFloat64);
    (P_ChanVmom, asynParamFloat64);
    (P_ChanImom, asynParamFloat64);
    (P_ChanVBounds, asynParamFloat64);
    (P_ChanIBounds, asynParamFloat64) ].

(** The [_modcmds.insert] calls, in order. *)
Definition modOffsets : list (member * Z) :=
  [ (P_ModStatus, 0x0000); (P_ModEvtStatus, 0x0004);
    (P_ModEvtMask, 0x0008); (P_ModCtrl, 0x000c);
    (P_ModEvtChanStatus, 0x0010); (P_ModEvtChanMask, 0x0014);
    (P_ModEvtGrpStatus, 0x0018); (P_ModEvtGrpMask, 0x001c);
    (P_VRamp, 0x0020); (P_CRamp, 0x0024);
    (P_VMax, 0x0028); (P_IMax, 0x002c);
    (P_SupplyP5, 0x0040); (P_SupplyP12, 0x0044);
    (P_SupplyN12, 0x0048); (P_Temperature, 0x004c) ].

(** The [_chancmds.insert] calls, in order. *)
Definition chanOffsets : list (member * Z) :=
  [ (P_ChanStatus, 0x0000); (P_ChanEvtStatus, 0x0004);
    (P_ChanEvtMask, 0x0008); (P_ChanCtrl, 0x000c);
    (P_ChanVset, 0x0010); (P_ChanIset, 0x0014);
    (P_ChanVmom, 0x0018); (P_ChanImom, 0x001c);
    (P_ChanVBounds, 0x0020); (P_ChanIBounds, 0x0024) ].

(** [std::map::insert]: a key already present keeps its value. *)
Definition map_insert (m : gmap Z Z) (kv : Z * Z) : gmap Z Z :=
  match m !! kv.1 with
  | Some _ => m
  | None => <[kv.1 := kv.2]> m
  end.

Definition set_member (ix : member -> Z) (m : member) (i : Z) : member -> Z :=
  fun m' => if decide (m' = m) then i else ix m'.

(** One [createParam( name, type, &P_... )]. *)
Definition create_one (acc : paramList * (member -> Z)) (decl : member * asynParamType)
  : paramList * (member -> Z) :=
  let '(status_index, ps) := createParam (paramString decl.1) decl.2 (acc.2 decl.1) acc.1 in
  (ps, set_member acc.2 decl.1 status_index.2).

Definition insert_all (ix : member -> Z) (offsets : list (member * Z)) : gmap Z Z :=
  fold_left (fun m mo => map_insert m (ix mo.1, mo.2)) offsets ∅.

(** The base-class constructor call in the initialiser list. *)
Definition asynPortDriver_new (name : string) : asynPortDriver :=
  {| portName := name;
     maxAddr := 8;
     paramTableSize := NUM_ISEGVDS_PARAMS;
     interfaceMasks := [asynCommonMask; asynInt32Mask; asynUInt32DigitalMask;
                        asynFloat64Mask; asynDrvUserMask];
     interruptMasks := [asynCommonMask; asynInt32Mask; asynUInt32DigitalMask;
                        asynFloat64Mask];
     asynFlags := [ASYN_CANBLOCK; ASYN_MULTIDEVICE];
     autoConnect := 1;
     priority := 0;
     stackSize := 0;
     params := newParamList 8 NUM_ISEGVDS_PARAMS |}.

(** [drvAsynIsegVds::drvAsynIsegVds( portName, BA )].  [getInstance] is
    what [VmeMaster::getInstance()] returns ([None] for a null pointer)
    and [garbage] the indeterminate content of the [P_...] members
    before the constructor body runs.  The statuses [createParam] returns
    are dropped, as in the C++; the line printed to stderr when no
    instance is found is left out. *)
Definition drvAsynIsegVds_new (name : string) (BA : Z)
    (getInstance : option VmeMaster) (garbage : member -> Z) : drvAsynIsegVds :=
  let b := asynPortDriver_new name in
  match getInstance with
  | None =>
      {| base := b; _deviceName := name; _base := BA; _vme := None;
         idx := garbage; _modcmds := ∅; _chancmds := ∅ |}
  | Some vme =>
      let created := fold_left create_one paramDecls (params b, garbage) in
      {| base := with_params b created.1;
         _deviceName := name; _base := BA; _vme := Some vme;
         idx := created.2;
         _modcmds := insert_all created.2 modOffsets;
         _chancmds := insert_all created.2 chanOffsets |}
  end.

(** *** Address translation *)

(** The lookup every entry point starts with:
    [it = _modcmds.find( function )], falling back to
    [_chancmds.find( function )] and then adding [chanAddr[addr]]. *)
Inductive located : Type :=
| NotFound
| OutOfBounds (addr : Z)
| At (vmeAddr : Z).

Definition locate (d : drvAsynIsegVds) (function addr : Z) : located :=
  let vmeAddr := 0 in
  match _modcmds d !! function with
  | Some second => At (u32 (vmeAddr + second))
  | None =>
      match _chancmds d !! function with
      | None => NotFound
      | Some second =>
          match chanAddr_at addr with
          | None => OutOfBounds addr
          | Some c =>
              let vmeAddr := u32 (vmeAddr + c) in
              At (u32 (vmeAddr + second))
          end
      end
  end.

(** *** Bus accesses, logged *)

(** [_vme->readRegisterA16D32( _base, vmeAddr )]; [None] when [_vme] is
    a null pointer. *)
Definition vme_read (s : State) (vmeAddr : Z) : option ((VmeException + Z) * State) :=
  match _vme (this s) with
  | None => None
  | Some vme =>
      let r := readRegisterA16D32 vme (_base (this s)) vmeAddr (bus s) in
      Some (r.1,
            {| this := this s; bus := r.2;
               accesses := accesses s ++ [ReadA16D32 vme (_base (this s)) vmeAddr];
               trace := trace s; portTimeStamp := portTimeStamp s |})
  end.

(** [_vme->writeRegisterA16D32( _base, vmeAddr, data )]. *)
Definition vme_write (s : State) (vmeAddr data : Z) : option (option VmeException * State) :=
  match _vme (this s) with
  | None => None
  | Some vme =>
      let r := writeRegisterA16D32 vme (_base (this s)) vmeAddr data (bus s) in
      Some (r.1,
            {| this := this s; bus := r.2;
               accesses := accesses s ++ [WriteA16D32 vme (_base (this s)) vmeAddr data];
               trace := trace s; portTimeStamp := portTimeStamp s |})
  end.

(** *** The entry points *)

(** Behaviour C++ does not define. *)
Inductive undefined : Type :=
| NullVme
| ChanAddrOutOfBounds (addr : Z).

(** How a call ends: with a status, the content of [*pasynUser] and of
    [*value] (or the [value] argument) and the new state, or undefined. *)
Inductive outcome (V : Type) : Type :=
| Returned (status : asynStatus) (pasynUser : asynUser) (value : V) (s : State)
| Undefined (u : undefined).
Arguments Returned {V}.
Arguments Undefined {V}.

Definition msg_exception (functionName : string) (function : Z) (e : VmeException) : message :=
  {| fmt := "%s:%s: function=%d %s";
     args := [ArgS driverName; ArgS functionName; ArgD function; ArgS (what e)] |}.

Definition readUInt32Digital (pasynUser : asynUser) (value mask : Z) (s : State)
  : outcome Z :=
  let functionName := "readUInt32Digital" in
  let function := reason pasynUser in
  let timeStamp := getTimeStamp s in
  let '(status, addr) := getAddress (maxAddr (base (this s))) pasynUser 0 in
  if failed status then Returned status pasynUser value s else
  match locate (this s) function addr with
  | NotFound => Returned asynError pasynUser value s
  | OutOfBounds a => Undefined (ChanAddrOutOfBounds a)
  | At vmeAddr =>
      match vme_read s vmeAddr with
      | None => Undefined NullVme
      | Some (inl e, s) =>
          Returned asynError
            (set_errorMessage pasynUser (msg_exception functionName function e))
            value s
      | Some (inr vmeData, s) =>
          let '(_, ps) :=
            setUIntDigitalParam addr function vmeData mask (params (base (this s))) in
          let s := set_params s ps in
          let '(status, value) :=
            getUIntDigitalParam addr function value mask (params (base (this s))) in
          let pasynUser := set_timestamp pasynUser timeStamp in
          if failed status then
            Returned status
              (set_errorMessage pasynUser
                 {| fmt := "%s:%s: status=%d, function=%d, value=%d";
                    args := [ArgS driverName; ArgS functionName; ArgStatus status;
                             ArgD function; ArgD value] |})
              value s
          else
            Returned status pasynUser value
              (asynPrint s ASYN_TRACEIO_DEVICE
                 {| fmt := "%s:%s: function=%d, value=%d\n";
                    args := [ArgS driverName; ArgS functionName;
                             ArgD function; ArgD value] |})
      end
  end.

(** The members [writeUInt32Digital] treats as read-only. *)
Definition readonly_uint32 (d : drvAsynIsegVds) (function : Z) : bool :=
  (function =? idx d P_ModStatus) || (function =? idx d P_ChanStatus).

Definition writeUInt32Digital (pasynUser : asynUser) (value mask : Z) (s : State)
  : outcome unit :=
  let functionName := "writeUInt32Digital" in
  let function := reason pasynUser in
  let timeStamp := getTimeStamp s in
  if readonly_uint32 (this s) function then Returned asynSuccess pasynUser tt s else
  let '(status, addr) := getAddress (maxAddr (base (this s))) pasynUser 0 in
  if failed status then Returned status pasynUser tt s else
  match locate (this s) function addr with
  | NotFound => Returned asynError pasynUser tt s
  | OutOfBounds a => Undefined (ChanAddrOutOfBounds a)
  | At vmeAddr =>
      match vme_write s vmeAddr value with
      | None => Undefined NullVme
      | Some (Some e, s) =>
          Returned asynError
            (set_errorMessage pasynUser (msg_exception functionName function e))
            tt s
      | Some (None, s) =>
          let '(_, ps) :=
            setUIntDigitalParam addr function value mask (params (base (this s))) in
          let s := set_params s ps in
          let '(status, ps) := callParamCallbacks addr addr (params (base (this s))) in
          let s := set_params s ps in
          if failed status then
            Returned status
              (set_errorMessage pasynUser
                 {| fmt := "%s:%s:%s: status=%d, function=%d, value=%d";
                    args := [ArgS driverName; ArgS (_deviceName (this s));
                             ArgS functionName; ArgStatus status;
                             ArgD function; ArgD value] |})
              tt s
          else
            Returned status pasynUser tt
              (asynPrint s ASYN_TRACEIO_DEVICE
                 {| fmt := "%s:%s: function=%d, value=%d\n";
                    args := [ArgS driverName; ArgS functionName;
                             ArgD function; ArgD value] |})
      end
  end.

Definition readFloat64 (pasynUser : asynUser) (value : epicsFloat64) (s : State)
  : outcome epicsFloat64 :=
  let functionName := "readFloat64" in
  let function := reason pasynUser in
  let timeStamp := getTimeStamp s in
  let '(status, addr) := getAddress (maxAddr (base (this s))) pasynUser 0 in
  if failed status then Returned status pasynUser value s else
  match locate (this s) function addr with
  | NotFound => Returned asynError pasynUser value s
  | OutOfBounds a => Undefined (ChanAddrOutOfBounds a)
  | At vmeAddr =>
      match vme_read s vmeAddr with
      | None => Undefined NullVme
      | Some (inl e, s) =>
          Returned asynError
            (set_errorMessage pasynUser (msg_exception functionName function e))
            value s
      | Some (inr vmeData, s) =>
          let data := stored_ival vmeData in
          let data :=
            if (function =? idx (this s) P_ChanImom) || (function =? idx (this s) P_ChanIset)
            then fval_mul_assign data float64_1e6 else data in
          let '(_, ps) :=
            setDoubleParam addr function (float64_of_float32 (fval data))
              (params (base (this s))) in
          let s := set_params s ps in
          let '(status, value) :=
            getDoubleParam addr function value (params (base (this s))) in
          let pasynUser := set_timestamp pasynUser timeStamp in
          if failed status then
            Returned status
              (set_errorMessage pasynUser
                 {| fmt := "%s:%s: status=%d, function=%d, value=%f";
                    args := [ArgS driverName; ArgS functionName; ArgStatus status;
                             ArgD function; ArgF value] |})
              value s
          else
            Returned status pasynUser value
              (asynPrint s ASYN_TRACEIO_DRIVER
                 {| fmt := "%s:%s: function=%d, value=%f\n";
                    args := [ArgS driverName; ArgS functionName;
                             ArgD function; ArgF value] |})
      end
  end.

(** The members [writeFloat64] treats as read-only. *)
Definition readonly_float64 (d : drvAsynIsegVds) (function : Z) : bool :=
  (function =? idx d P_VMax) || (function =? idx d P_IMax)
  || (function =? idx d P_SupplyP5) || (function =? idx d P_SupplyP12)
  || (function =? idx d P_SupplyN12) || (function =? idx d P_Temperature)
  || (function =? idx d P_ChanVmom) || (function =? idx d P_ChanImom).

Definition writeFloat64 (pasynUser : asynUser) (value : epicsFloat64) (s : State)
  : outcome unit :=
  let functionName := "writeFloat64" in
  let function := reason pasynUser in
  let vmeData := stored_fval (float32_of_float64 value) in
  if readonly_float64 (this s) function then Returned asynSuccess pasynUser tt s else
  let '(status, addr) := getAddress (maxAddr (base (this s))) pasynUser 0 in
  if failed status then Returned status pasynUser tt s else
  let vmeData :=
    if function =? idx (this s) P_ChanIset
    then fval_mul_assign vmeData float64_1em6 else vmeData in
  match locate (this s) function addr with
  | NotFound => Returned asynError pasynUser tt s
  | OutOfBounds a => Undefined (ChanAddrOutOfBounds a)
  | At vmeAddr =>
      match vme_write s vmeAddr (ival vmeData) with
      | None => Undefined NullVme
      | Some (Some e, s) =>
          Returned asynError
            (set_errorMessage pasynUser (msg_exception functionName function e))
            tt s
      | Some (None, s) =>
          let '(_, ps) :=
            setDoubleParam addr function value (params (base (this s))) in
          let s := set_params s ps in
          let '(status, ps) := callParamCallbacks addr addr (params (base (this s))) in
          let s := set_params s ps in
          if failed status then
            Returned status pasynUser tt
              (asynPrint s ASYN_TRACE_ERROR
                 {| fmt := "%s:%s: error, status=%d function=%d, value=%f\n";
                    args := [ArgS driverName; ArgS functionName; ArgStatus status;
                             ArgD function; ArgF value] |})
          else
            Returned status pasynUser tt
              (asynPrint s ASYN_TRACEIO_DRIVER
                 {| fmt := "%s:%s: function=%d, value=%f\n";
                    args := [ArgS driverName; ArgS functionName;
                             ArgD function; ArgF value] |})
      end
  end.

(** *** Calls in sequence *)

(** A call of one of the four entry points by an asyn client. *)
Inductive call : Type :=
| CallReadUInt32Digital (pasynUser : asynUser) (value mask : Z)
| CallWriteUInt32Digital (pasynUser : asynUser) (value mask : Z)
| CallReadFloat64 (pasynUser : asynUser) (value : epicsFloat64)
| CallWriteFloat64 (pasynUser : asynUser) (value : epicsFloat64).

Definition call_user (c : call) : asynUser :=
  match c with
  | CallReadUInt32Digital u _ _ | CallWriteUInt32Digital u _ _
  | CallReadFloat64 u _ | CallWriteFloat64 u _ => u
  end.

(** The identifier and the channel address of a call: [pasynUser->reason]
    and what [getAddress] leaves in [addr]. *)
Definition call_function (c : call) : Z := reason (call_user c).
Definition call_addr (s : State) (c : call) : Z :=
  (getAddress (maxAddr (base (this s))) (call_user c) 0).2.

(** An outcome without the value. *)
Definition finish {V : Type} (o : outcome V) : option (asynStatus * asynUser * State) :=
  match o with
  | Returned status u _ s => Some (status, u, s)
  | Undefined _ => None
  end.

Definition exec (c : call) (s : State) : option (asynStatus * asynUser * State) :=
  match c with
  | CallReadUInt32Digital u v m => finish (readUInt32Digital u v m s)
  | CallWriteUInt32Digital u v m => finish (writeUInt32Digital u v m s)
  | CallReadFloat64 u v => finish (readFloat64 u v s)
  | CallWriteFloat64 u v => finish (writeFloat64 u v s)
  end.

(** The state after a sequence of calls, as long as all are defined. *)
Fixpoint run (cs : list call) (s : State) : option State :=
  match cs with
  | [] => Some s
  | c :: cs =>
      match exec c s with
      | Some (_, _, s') => run cs s'
      | None => None
      end
  end.

(** The state a freshly constructed driver starts in. *)
Definition initial (name : string) (BA : Z) (getInstance : option VmeMaster)
    (garbage : member -> Z) (b : VmeBus) (t0 : epicsTimeStamp) : State :=
  {| this := drvAsynIsegVds_new name BA getInstance garbage;
     bus := b; accesses := []; trace := []; portTimeStamp := t0 |}.

(** Between calls the hardware, the clock and the parameter library
    move on their own (other clients of the port, the device itself). *)
Definition environment (s : State) (b : VmeBus) (t : epicsTimeStamp) (ps : paramList) : State :=
  {| this := driver_with_params (this s) ps; bus := b;
     accesses := accesses s; trace := trace s; portTimeStamp := t |}.

(** The states a driver can be in: freshly constructed, after a call
    that returned, after the environment moved. *)
Inductive reachable : State -> Prop :=
| reachable_initial name BA getInstance garbage b t0 :
    reachable (initial name BA getInstance garbage b t0)
| reachable_exec c s status u s' :
    reachable s -> exec c s = Some (status, u, s') -> reachable s'
| reachable_environment s b t ps :
    reachable s -> reachable (environment s b t ps).

(** The name an entry point puts into its messages. *)
Definition functionName (c : call) : string :=
  match c with
  | CallReadUInt32Digital _ _ _ => "readUInt32Digital"
  | CallWriteUInt32Digital _ _ _ => "writeUInt32Digital"
  | CallReadFloat64 _ _ => "readFloat64"
  | CallWriteFloat64 _ _ => "writeFloat64"
  end.

(** Reads and writes, among calls and among accesses. *)
Definition is_read_call (c : call) : bool :=
  match c with
  | CallReadUInt32Digital _ _ _ | CallReadFloat64 _ _ => true
  | CallWriteUInt32Digital _ _ _ | CallWriteFloat64 _ _ => false
  end.

Definition is_read_access (a : VmeAccess) : bool :=
  match a with
  | ReadA16D32 _ _ _ => true
  | WriteA16D32 _ _ _ _ => false
  end.

(** Whether a call is a write to a member its entry point treats as
    read-only. *)
Definition readonly (c : call) (s : State) : bool :=
  match c with
  | CallWriteUInt32Digital u _ _ => readonly_uint32 (this s) (reason u)
  | CallWriteFloat64 u _ => readonly_float64 (this s) (reason u)
  | _ => false
  end.

(** The outcome of the bus operation [a] names, on the bus [b]: the
    exception it throws, if any. *)
Definition thrown (b : VmeBus) (a : VmeAccess) : option VmeException :=
  match a with
  | ReadA16D32 vme ba x =>
      match (readRegisterA16D32 vme ba x b).1 with
      | inl e => Some e
      | inr _ => None
      end
  | WriteA16D32 vme ba x v => (writeRegisterA16D32 vme ba x v b).1
  end.

(** The address the two tables give for an identifier and a channel
    address, without wrap-around. *)
Definition vmeAddress (modcmds chancmds : gmap Z Z) (function addr : Z) : option Z :=
  match modcmds !! function with
  | Some off => Some off
  | None =>
      match chancmds !! function, chanAddr_at addr with
      | Some off, Some c => Some (c + off)
      | _, _ => None
      end
  end.

(** The ways a call can have run, by the point it returned at: before
    the lookup, at a failed lookup, in the exception handler, or at the
    end after the access went through. *)
Inductive ran (c : call) (s : State) : asynStatus -> asynUser -> State -> Prop :=
| ran_readonly :
    readonly c s = true ->
    ran c s asynSuccess (call_user c) s
| ran_no_address status :
    readonly c s = false ->
    status = (getAddress (maxAddr (base (this s))) (call_user c) 0).1 ->
    failed status = true ->
    ran c s status (call_user c) s
| ran_not_found :
    readonly c s = false ->
    failed (getAddress (maxAddr (base (this s))) (call_user c) 0).1 = false ->
    locate (this s) (call_function c) (call_addr s c) = NotFound ->
    ran c s asynError (call_user c) s
| ran_exception vme vmeAddr a e s' :
    readonly c s = false ->
    failed (getAddress (maxAddr (base (this s))) (call_user c) 0).1 = false ->
    locate (this s) (call_function c) (call_addr s c) = At vmeAddr ->
    _vme (this s) = Some vme ->
    access_vme a = vme -> access_base a = _base (this s) -> access_addr a = vmeAddr ->
    thrown (bus s) a = Some e ->
    this s' = this s ->
    accesses s' = (accesses s ++ [a])%list ->
    is_read_access a = is_read_call c ->
    ran c s asynError
      (set_errorMessage (call_user c)
         (msg_exception (functionName c) (call_function c) e)) s'
| ran_through vme vmeAddr a status u ps s' :
    readonly c s = false ->
    failed (getAddress (maxAddr (base (this s))) (call_user c) 0).1 = false ->
    locate (this s) (call_function c) (call_addr s c) = At vmeAddr ->
    _vme (this s) = Some vme ->
    access_vme a = vme -> access_base a = _base (this s) -> access_addr a = vmeAddr ->
    thrown (bus s) a = None ->
    this s' = driver_with_params (this s) ps ->
    accesses s' = (accesses s ++ [a])%list ->
    is_read_access a = is_read_call c ->
    ran c s status u s'.

(** A driver object as the constructor leaves it, whatever the
    parameter library holds by now. *)
Definition constructed (d : drvAsynIsegVds) : Prop :=
  exists name BA getInstance garbage ps,
    d = driver_with_params (drvAsynIsegVds_new name BA getInstance garbage) ps.
End Driver.

Arguments Returned {FO VL AL V}.
Arguments Undefined {FO VL AL V}.

(** ** Configuration from the IOC shell *)

(** What iocsh.h declares of an argument, a command and an argument
    buffer.  The buffer is a union; it is kept as the member iocsh stored,
    and reading another member is not defined. *)
Inductive iocshArgType : Type := iocshArgInt | iocshArgString.

Record iocshArg : Type := { arg_name : string; arg_type : iocshArgType }.

Record iocshFuncDef : Type := {
  func_name : string;
  nargs : Z;
  arg : list iocshArg
}.

Inductive iocshArgBuf : Type :=
| stored_buf_ival (i : Z)
| stored_buf_sval (s : string).

Definition buf_ival (b : iocshArgBuf) : option Z :=
  match b with stored_buf_ival i => Some i | _ => None end.

Definition buf_sval (b : iocshArgBuf) : option string :=
  match b with stored_buf_sval s => Some s | _ => None end.

(** Whether a buffer holds the member an argument of type [t] is stored in. *)
Definition holds (t : iocshArgType) (b : iocshArgBuf) : bool :=
  match t, b with
  | iocshArgInt, stored_buf_ival _ => true
  | iocshArgString, stored_buf_sval _ => true
  | _, _ => false
  end.

Definition initIsegVdsArg0 : iocshArg := {| arg_name := "portName"; arg_type := iocshArgString |}.
Definition initIsegVdsArg1 : iocshArg := {| arg_name := "BA"; arg_type := iocshArgInt |}.
Definition initIsegVdsArgs : list iocshArg := [initIsegVdsArg0; initIsegVdsArg1].
Definition initIsegVdsFuncDef : iocshFuncDef :=
  {| func_name := "drvAsynIsegVdsConfigure"; nargs := 2; arg := initIsegVdsArgs |}.

Section Registration.
Context `{FO : FloatOps} `{VL : VmeMasterLib} `{AL : !AsynPortDriverLib} `{HD : Header}.

(** The IOC as far as these routines touch it: what
    [VmeMaster::getInstance()] answers, what fresh memory holds where the
    [P_...] members of a new object come to lie, the driver objects
    created so far, the commands registered with iocsh, and the static
    [firstTime] of [drvAsynIsegVdsDrvRegister]. *)
Record Ioc : Type := {
  vmeInstance : option VmeMaster;
  fresh_memory : member -> Z;
  ports : list drvAsynIsegVds;
  commands : list iocshFuncDef;
  firstTime : Z
}.

(** The IOC before any of this code ran: [static int firstTime = 1]. *)
Definition ioc_start (inst : option VmeMaster) (mem : member -> Z)
    (cmds : list iocshFuncDef) : Ioc :=
  {| vmeInstance := inst; fresh_memory := mem; ports := [];
     commands := cmds; firstTime := 1 |}.

(** [drvAsynIsegVdsConfigure( portName, BA )]. *)
Definition drvAsynIsegVdsConfigure (name : string) (BA : Z) (w : Ioc) : asynStatus * Ioc :=
  (asynSuccess,
   {| vmeInstance := vmeInstance w; fresh_memory := fresh_memory w;
      ports := ports w ++ [drvAsynIsegVds_new name BA (vmeInstance w) (fresh_memory w)];
      commands := commands w; firstTime := firstTime w |}).

(** [initIsegVdsCallFunc( args )]; [None] when [args[0].sval] or
    [args[1].ival] is not there to be read. *)
Definition initIsegVdsCallFunc (args : list iocshArgBuf) (w : Ioc) : option Ioc :=
  match args !! 0%nat, args !! 1%nat with
  | Some a0, Some a1 =>
      match buf_sval a0, buf_ival a1 with
      | Some name, Some BA => Some (drvAsynIsegVdsConfigure name BA w).2
      | _, _ => None
      end
  | _, _ => None
  end.

(** [iocshRegister( &initIsegVdsFuncDef, initIsegVdsCallFunc )]. *)
Definition iocshRegister (def : iocshFuncDef) (w : Ioc) : Ioc :=
  {| vmeInstance := vmeInstance w; fresh_memory := fresh_memory w;
     ports := ports w; commands := commands w ++ [def]; firstTime := firstTime w |}.

(** [drvAsynIsegVdsDrvRegister()]. *)
Definition drvAsynIsegVdsDrvRegister (w : Ioc) : Ioc :=
  if firstTime w =? 0 then w
  else
    let w := iocshRegister initIsegVdsFuncDef w in
    {| vmeInstance := vmeInstance w; fresh_memory := fresh_memory w;
       ports := ports w; commands := commands w; firstTime := 0 |}.

(** The state a created port starts in, on a given crate and clock. *)
Definition port_state (d : drvAsynIsegVds) (b : VmeBus) (t0 : epicsTimeStamp) : State :=
  {| this := d; bus := b; accesses := []; trace := []; portTimeStamp := t0 |}.
End Registration.

(** ** A bench to run the driver on

    One implementation of each library interface: IEEE-754 arithmetic
    from the standard library's [SpecFloat] (NaNs carry no payload there),
    a register file for the crate, and a parameter library in the manner
    of asyn's. *)

Module Bench.

Definition sign_bit (s : bool) : Z := if s then 0x80000000 else 0.

(** The binary32 value of a 32-bit pattern. *)
Definition b32_of_bits (x : Z) : spec_float :=
  let x := u32 x in
  let s := Z.testbit x 31 in
  let e := Z.land (Z.shiftr x 23) 0xff in
  let m := Z.land x 0x7fffff in
  if e =? 0 then
    match m with
    | Zpos p => S754_finite s p (-149)
    | _ => S754_zero s
    end
  else if e =? 255 then
    (if m =? 0 then S754_infinity s else S754_nan)
  else
    match m + 0x800000 with
    | Zpos p => S754_finite s p (e - 150)
    | _ => S754_nan
    end.

(** The 32-bit pattern of a binary32 value in canonical form. *)
Definition bits_of_b32 (f : spec_float) : Z :=
  match f with
  | S754_zero s => sign_bit s
  | S754_infinity s => sign_bit s + 0x7f800000
  | S754_nan => 0x7fc00000
  | S754_finite s m e =>
      if Zpos m <? 0x800000 then sign_bit s + Zpos m
      else sign_bit s + (e + 150) * 2 ^ 23 + (Zpos m - 0x800000)
  end.

Definition round_to (prec emax : Z) (f : spec_float) : spec_float :=
  match f with
  | S754_finite s m e => binary_round prec emax s m e
  | _ => f
  end.

#[global] Instance ieee754 : FloatOps := {|
  epicsFloat32 := spec_float;
  epicsFloat64 := spec_float;
  float32_of_bits := b32_of_bits;
  bits_of_float32 := bits_of_b32;
  float32_of_float64 := round_to 24 128;
  float64_of_float32 := round_to 53 1024;
  float64_mul := SFmul 53 1024;
  float64_1e6 := binary_normalize 53 1024 1000000 0 false;
  float64_1em6 := S754_finite false 4722366482869645 (-72)
|}.

(** A crate: registers by A16 address; an address nothing answers at
    ends in a bus error. *)
#[global] Instance crate : VmeMasterLib := {|
  VmeMaster := nat;
  VmeBus := gmap Z Z;
  VmeException := string;
  what := fun e => e;
  readRegisterA16D32 := fun _ ba x b =>
    match b !! (ba + x) with
    | Some v => (inr v, b)
    | None => (inl "bus error", b)
    end;
  writeRegisterA16D32 := fun _ ba x v b =>
    match b !! (ba + x) with
    | Some _ => (None, <[ba + x := v]> b)
    | None => (Some "bus error", b)
    end
|}.

(** A parameter library: the declared parameters in order of creation,
    and one value per list and index once it was set. *)
Record table : Type := {
  lists : Z;
  capacity : Z;
  decls : list (string * asynParamType);
  uvals : gmap (Z * Z) Z;
  dvals : gmap (Z * Z) spec_float
}.

Fixpoint find_name (name : string) (l : list (string * asynParamType)) (i : Z) : option Z :=
  match l with
  | [] => None
  | (n, _) :: l => if String.eqb n name then Some i else find_name name l (i + 1)
  end.

Definition create (name : string) (ty : asynParamType) (index : Z) (t : table)
  : asynStatus * Z * table :=
  match find_name name (decls t) 0 with
  | Some i => (asynParamAlreadyExists, i, t)
  | None =>
      let n := Z.of_nat (length (decls t)) in
      if n <? capacity t then
        (asynSuccess, n,
         {| lists := lists t; capacity := capacity t;
            decls := decls t ++ [(name, ty)];
            uvals := uvals t; dvals := dvals t |})
      else (asynParamBadIndex, index, t)
  end.

(** The status of an access of type [ty] to [index] in list [l]. *)
Definition check (t : table) (l index : Z) (ty : asynParamType) : asynStatus :=
  if (l <? 0) || (lists t <=? l) || (index <? 0) then asynParamBadIndex else
  match decls t !! Z.to_nat index with
  | None => asynParamBadIndex
  | Some (_, asynParamUInt32Digital) =>
      match ty with asynParamUInt32Digital => asynSuccess | _ => asynParamWrongType end
  | Some (_, asynParamFloat64) =>
      match ty with asynParamFloat64 => asynSuccess | _ => asynParamWrongType end
  end.

Definition set_uint (l index value mask : Z) (t : table) : asynStatus * table :=
  match check t l index asynParamUInt32Digital with
  | asynSuccess =>
      let old := default 0 (uvals t !! (l, index)) in
      (asynSuccess,
       {| lists := lists t; capacity := capacity t; decls := decls t;
          uvals := <[(l, index) := Z.lor (Z.land old (Z.lnot mask)) (Z.land value mask)]> (uvals t);
          dvals := dvals t |})
  | status => (status, t)
  end.

Definition get_uint (l index value mask : Z) (t : table) : asynStatus * Z :=
  match check t l index asynParamUInt32Digital with
  | asynSuccess =>
      match uvals t !! (l, index) with
      | Some v => (asynSuccess, Z.land v mask)
      | None => (asynParamUndefined, value)
      end
  | status => (status, value)
  end.

Definition set_double (l index : Z) (value : spec_float) (t : table) : asynStatus * table :=
  match check t l index asynParamFloat64 with
  | asynSuccess =>
      (asynSuccess,
       {| lists := lists t; capacity := capacity t; decls := decls t;
          uvals := uvals t; dvals := <[(l, index) := value]> (dvals t) |})
  | status => (status, t)
  end.

Definition get_double (l index : Z) (value : spec_float) (t : table) : asynStatus * spec_float :=
  match check t l index asynParamFloat64 with
  | asynSuccess =>
      match dvals t !! (l, index) with
      | Some v => (asynSuccess, v)
      | None => (asynParamUndefined, value)
      end
  | status => (status, value)
  end.

(** The address of a user, checked against the number of addresses. *)
Definition address_of (maxAddr : Z) (u : asynUser) (address : Z) : asynStatus * Z :=
  let a := if device_addr u =? -1 then 0 else device_addr u in
  if (a <? 0) || (maxAddr <=? a) then (asynError, a) else (asynSuccess, a).

#[global] Instance port : AsynPortDriverLib := {|
  paramList := table;
  newParamList := fun n size =>
    {| lists := n; capacity := size; decls := []; uvals := ∅; dvals := ∅ |};
  createParam := create;
  getAddress := address_of;
  setUIntDigitalParam := set_uint;
  getUIntDigitalParam := get_uint;
  setDoubleParam := set_double;
  getDoubleParam := get_double;
  callParamCallbacks := fun _ _ t => (asynSuccess, t)
|}.

(** The header, with each macro standing for its own name. *)
#[global] Instance header : Header := {|
  paramString := fun m =>
    match m with
    | P_ModStatus => "P_ISEGVDS_MODSTATUS_STRING"
    | P_ModEvtStatus => "P_ISEGVDS_MODEVTSTATUS_STRING"
    | P_ModEvtMask => "P_ISEGVDS_MODEVTMASK_STRING"
    | P_ModCtrl => "P_ISEGVDS_MODCTRL_STRING"
    | P_ModEvtChanStatus => "P_ISEGVDS_MODEVTCHANSTATUS_STRING"
    | P_ModEvtChanMask => "P_ISEGVDS_MODEVTCHANMASK_STRING"
    | P_ModEvtGrpStatus => "P_ISEGVDS_MODEVTGRPSTATUS_STRING"
    | P_ModEvtGrpMask => "P_ISEGVDS_MODEVTGRPMASK_STRING"
    | P_VRamp => "P_ISEGVDS_VRAMP_STRING"
    | P_CRamp => "P_ISEGVDS_CRAMP_STRING"
    | P_VMax => "P_ISEGVDS_VMAX_STRING"
    | P_IMax => "P_ISEGVDS_IMAX_STRING"
    | P_SupplyP5 => "P_ISEGVDS_SUPPLYP5_STRING"
    | P_SupplyP12 => "P_ISEGVDS_SUPPLYP12_STRING"
    | P_SupplyN12 => "P_ISEGVDS_SUPPLYN12_STRING"
    | P_Temperature => "P_ISEGVDS_TEMPERATURE_STRING"
    | P_ChanStatus => "P_ISEGVDS_CHANSTATUS_STRING"
    | P_ChanEvtStatus => "P_ISEGVDS_CHANEVTSTATUS_STRING"
    | P_ChanEvtMask => "P_ISEGVDS_CHANEVTMASK_STRING"
    | P_ChanCtrl => "P_ISEGVDS_CHANCTRL_STRING"
    | P_ChanVset => "P_ISEGVDS_CHANVSET_STRING"
    | P_ChanIset => "P_ISEGVDS_CHANISET_STRING"
    | P_ChanVmom => "P_ISEGVDS_CHANVMOM_STRING"
    | P_ChanImom => "P_ISEGVDS_CHANIMOM_STRING"
    | P_ChanVBounds => "P_ISEGVDS_CHANVBOUNDS_STRING"
    | P_ChanIBounds => "P_ISEGVDS_CHANIBOUNDS_STRING"
    end;
  NUM_ISEGVDS_PARAMS := 26
|}.

(** A crate with a module at base address 0x4000 whose eight channels
    and module block answer; nothing else does. *)
Definition registers : gmap Z Z :=
  list_to_map
    (map (fun x => (0x4000 + x, 0))
       (map (fun i => 4 * Z.of_nat i) (seq 0 20)
        ++ flat_map (fun c => map (fun i => c + 4 * Z.of_nat i) (seq 0 10)) chanAddr)).

Definition no_message : message := {| fmt := ""; args := [] |}.

Definition user (function addr : Z) : asynUser :=
  {| reason := function; device_addr := addr; errorMessage := no_message;
     timestamp := {| secPastEpoch := 0; nsec := 0 |} |}.

Definition t0 : epicsTimeStamp := {| secPastEpoch := 1000; nsec := 0 |}.

(** The driver after [drvAsynIsegVdsConfigure( "VDS", 0x4000 )]. *)
Definition s0 : State := initial "VDS" 0x4000 (Some 1%nat) (fun _ => -1) registers t0.

(** The same in a crate where nothing answers. *)
Definition s_dead : State := initial "VDS" 0x4000 (Some 1%nat) (fun _ => -1) ∅ t0.

(** The same, had no [VmeMaster] been found. *)
Definition s_null : State := initial "VDS" 0x4000 None (fun _ => -1) registers t0.

(** What a call returns and leaves behind ([asynDisabled] and the
    state as it was stand for behaviour that is not defined). *)
Definition status_after (c : call) (s : State) : asynStatus :=
  match exec c s with Some (status, _, _) => status | None => asynDisabled end.
Definition user_after (c : call) (s : State) : asynUser :=
  match exec c s with Some (_, u, _) => u | None => call_user c end.
Definition after (c : call) (s : State) : State :=
  match exec c s with Some (_, _, s') => s' | None => s end.

Definition value_after (u : asynUser) (value : spec_float) (s : State) : spec_float :=
  match readFloat64 u value s with
  | Returned _ _ v _ => v
  | Undefined _ => value
  end.
Definition after_all (cs : list call) (s : State) : State :=
  match run cs s with Some s' => s' | None => s end.

(** Whether a call, or a sequence of calls, returns. *)
Definition returns (c : call) (s : State) : bool :=
  match exec c s with Some _ => true | None => false end.
Definition all_return (cs : list call) (s : State) : bool :=
  match run cs s with Some _ => true | None => false end.

(** 1.0e6 and 1.0f. *)
Definition million : spec_float := binary_normalize 53 1024 1000000 0 false.
Definition one_f : Z := 0x3f800000.

(** Some calls: the event status of channel 3, the control word of
    channel 3, the set current of channel 2 (read and written), and the
    measured current of channel 2. *)
Definition read_evt3 : call := CallReadUInt32Digital (user 17 3) 0 0xff.
Definition write_ctrl3 : call := CallWriteUInt32Digital (user 19 3) 0x28 0xff.
Definition write_vramp_as_uint : call := CallWriteUInt32Digital (user 8 0) 5 0xff.
Definition write_ctrl2 : call := CallWriteUInt32Digital (user 19 2) 0x28 0xff.
Definition read_iset2 : call := CallReadFloat64 (user 21 2) S754_nan.
Definition write_iset2 : call := CallWriteFloat64 (user 21 2) million.

(** The bench with 1.0f in the set-current register of channel 2. *)
Definition s_one : State :=
  environment s0 (<[0x4000 + 0x180 + 0x14 := one_f]> registers) t0 (params (base (this s0))).

(** What a read delivers in [*value]. *)
Definition uint32_after (u : asynUser) (value mask : Z) (s : State) : Z :=
  match readUInt32Digital u value mask s with
  | Returned _ _ v _ => v
  | Undefined _ => value
  end.


Definition read_ctrl3 : call := CallReadUInt32Digital (user 19 3) 0 0x0f.
Definition read_vramp_as_uint : call := CallReadUInt32Digital (user 8 0) 0 0xff.

(** An IOC where no [VmeMaster] is to be found. *)
Definition ioc_bare : Ioc := ioc_start None (fun _ => -1) [].

End Bench.

(** * Properties *)

Local Close Scope string_scope.

(** ** The command tables *)

Section Tables.

Lemma map_insert_lookup (m : gmap Z Z) (kv : Z * Z) (k x : Z) :
  map_insert m kv !! k = Some x ->
  m !! k = Some x \/ (k = kv.1 /\ x = kv.2 /\ m !! k = None).
Proof.
  unfold map_insert. destruct (m !! kv.1) eqn:E; [ auto | ].
  destruct (decide (kv.1 = k)) as [<-|Hne].
  - rewrite lookup_insert_eq. intros [= <-]. auto.
  - rewrite lookup_insert_ne by assumption. auto.
Qed.



Lemma map_insert_size (m : gmap Z Z) (kv : Z * Z) :
  (size (map_insert m kv) <= S (size m))%nat.
Proof.
  unfold map_insert. destruct (m !! kv.1) eqn:E; [ lia | ].
  rewrite map_size_insert_None by assumption. lia.
Qed.

(** The three facts, carried through the inserts from any start. *)
Lemma fold_insert_lookup (ix : member -> Z) (l : list (member * Z)) :
  forall (m0 : gmap Z Z) (k x : Z),
    fold_left (fun m mo => map_insert m (ix mo.1, mo.2)) l m0 !! k = Some x ->
    m0 !! k = Some x \/ exists p, In (p, x) l /\ ix p = k.
Proof.
  induction l as [|[p off] l IH]; intros m0 k x; simpl.
  - auto.
  - intros H. destruct (IH _ _ _ H) as [H0|(q & Hq & Hk)].
    + destruct (map_insert_lookup _ _ _ _ H0) as [H1|(-> & -> & _)]; simpl.
      * auto.
      * right. exists p. auto.
    + right. exists q. auto.
Qed.



Lemma fold_insert_size (ix : member -> Z) (l : list (member * Z)) :
  forall m0 : gmap Z Z,
    (size (fold_left (fun m mo => map_insert m (ix mo.1, mo.2)) l m0)
     <= size m0 + length l)%nat.
Proof.
  induction l as [|[p off] l IH]; intros m0; simpl.
  - lia.
  - specialize (IH (map_insert m0 (ix p, off))).
    pose proof (map_insert_size m0 (ix p, off)). lia.
Qed.

(** Every entry of a table comes from one of the insert calls. *)
Lemma insert_all_lookup (ix : member -> Z) (l : list (member * Z)) (k x : Z) :
  insert_all ix l !! k = Some x -> exists p, In (p, x) l /\ ix p = k.
Proof.
  intros H. destruct (fold_insert_lookup ix l ∅ k x H) as [H0|H0].
  - rewrite lookup_empty in H0. discriminate.
  - assumption.
Qed.


Lemma insert_all_size (ix : member -> Z) (l : list (member * Z)) :
  (size (insert_all ix l) <= length l)%nat.
Proof.
  pose proof (fold_insert_size ix l ∅) as H.
  rewrite map_size_empty in H. exact H.
Qed.

Lemma modOffsets_range (p : member) (off : Z) :
  In (p, off) modOffsets -> 0 <= off <= 0x4c.
Proof.
  unfold modOffsets. simpl.
  intros H. repeat (destruct H as [[= _ <-]|H]; [ lia | ]). destruct H.
Qed.

Lemma chanOffsets_range (p : member) (off : Z) :
  In (p, off) chanOffsets -> 0 <= off <= 0x24.
Proof.
  unfold chanOffsets. simpl.
  intros H. repeat (destruct H as [[= _ <-]|H]; [ lia | ]). destruct H.
Qed.

Lemma chanAddr_at_range (addr c : Z) :
  chanAddr_at addr = Some c -> 0 <= addr < 8 /\ 0x100 <= c <= 0x2c0.
Proof.
  unfold chanAddr_at. destruct (addr <? 0) eqn:E; [ discriminate | ].
  apply Z.ltb_ge in E. intros H.
  remember (Z.to_nat addr) as n eqn:Hn.
  unfold chanAddr in H.
  destruct n as [|[|[|[|[|[|[|[|n]]]]]]]]; simpl in H;
    try (injection H as <-; lia); discriminate.
Qed.

Lemma chanAddr_at_defined (addr : Z) :
  0 <= addr < 8 -> is_Some (chanAddr_at addr).
Proof.
  intros H. unfold chanAddr_at.
  destruct (addr <? 0) eqn:E; [ apply Z.ltb_lt in E; lia | ].
  apply lookup_lt_is_Some. unfold chanAddr. simpl. lia.
Qed.

End Tables.

(** ** How a call runs *)

Section Run.
Context `{FO : FloatOps} `{VL : VmeMasterLib} `{AL : !AsynPortDriverLib} `{HD : Header}.

Lemma driver_with_params_same (d : drvAsynIsegVds) :
  driver_with_params d (params (base d)) = d.
Proof. destruct d as [[] ? ? ? ? ? ?]. reflexivity. Qed.

Lemma vme_read_Some (s s1 : State) (vmeAddr : Z) (r : VmeException + Z) :
  vme_read s vmeAddr = Some (r, s1) ->
  exists vme,
    _vme (this s) = Some vme /\
    readRegisterA16D32 vme (_base (this s)) vmeAddr (bus s) = (r, bus s1) /\
    this s1 = this s /\
    accesses s1 = accesses s ++ [ReadA16D32 vme (_base (this s)) vmeAddr] /\
    trace s1 = trace s /\ portTimeStamp s1 = portTimeStamp s.
Proof.
  unfold vme_read. destruct (_vme (this s)) as [vme|]; [ | discriminate ].
  destruct (readRegisterA16D32 vme (_base (this s)) vmeAddr (bus s)) as [r' b'] eqn:E.
  simpl. intros [= -> <-]. exists vme. simpl. rewrite E. repeat split; reflexivity.
Qed.

Lemma vme_write_Some (s s1 : State) (vmeAddr data : Z) (r : option VmeException) :
  vme_write s vmeAddr data = Some (r, s1) ->
  exists vme,
    _vme (this s) = Some vme /\
    writeRegisterA16D32 vme (_base (this s)) vmeAddr data (bus s) = (r, bus s1) /\
    this s1 = this s /\
    accesses s1 = accesses s ++ [WriteA16D32 vme (_base (this s)) vmeAddr data] /\
    trace s1 = trace s /\ portTimeStamp s1 = portTimeStamp s.
Proof.
  unfold vme_write. destruct (_vme (this s)) as [vme|]; [ | discriminate ].
  destruct (writeRegisterA16D32 vme (_base (this s)) vmeAddr data (bus s)) as [r' b'] eqn:E.
  simpl. intros [= -> <-]. exists vme. simpl. rewrite E. repeat split; reflexivity.
Qed.

(** Split a hypothesis about an entry point into the paths through it. *)
Ltac paths H :=
  repeat (simpl in H;
    match type of H with
    | context [match ?x with _ => _ end] => destruct x eqn:?
    end);
  simpl in H; try discriminate H;
  repeat match goal with
  | E : vme_read _ _ = Some _ |- _ =>
      apply vme_read_Some in E; destruct E as (? & ? & ? & ? & ? & ? & ?)
  | E : vme_write _ _ _ = Some _ |- _ =>
      apply vme_write_Some in E; destruct E as (? & ? & ? & ? & ? & ? & ?)
  end.

Ltac use_address :=
  unfold call_addr, call_function; simpl;
  repeat match goal with E : getAddress _ _ _ = _ |- _ => rewrite E end; simpl.

Ltac use_pairs :=
  simpl; repeat match goal with E : _ = (_, _) |- _ => rewrite E end.

Ltac classify :=
  first
    [ by (apply ran_readonly)
    | by (eapply ran_no_address; use_address)
    | by (eapply ran_not_found; use_address)
    | eapply ran_exception; use_address; try eassumption; try reflexivity;
      by use_pairs
    | eapply ran_through; use_address; try eassumption; try reflexivity;
      try (by use_pairs);
      by repeat match goal with E : this _ = _ |- _ => rewrite E end ].

(** Every call that returns took one of the five paths. *)
Lemma exec_ran (c : call) (s s' : State) (status : asynStatus) (u' : asynUser) :
  exec c s = Some (status, u', s') -> ran c s status u' s'.
Proof.
  intros H. destruct c as [u v m|u v m|u v|u v];
    unfold exec, readUInt32Digital, writeUInt32Digital, readFloat64, writeFloat64 in H;
    paths H; injection H as <- <- <-.
  all: classify.
Qed.

(** A call changes nothing of the driver object but the parameter
    library of its base. *)
Lemma exec_this (c : call) (s s' : State) (status : asynStatus) (u' : asynUser) :
  exec c s = Some (status, u', s') ->
  exists ps, this s' = driver_with_params (this s) ps.
Proof.
  intros H. apply exec_ran in H.
  destruct H as [ | | | ? ? ? ? ? ? ? ? ? ? ? ? ? Hthis ? ? | ? ? ? ? ? ps ? ? ? ? ? ? ? ? ? Hthis ? ? ].
  1-3: exists (params (base (this s))); symmetry; apply driver_with_params_same.
  - exists (params (base (this s))). rewrite Hthis. symmetry. apply driver_with_params_same.
  - exists ps. exact Hthis.
Qed.

(** What a call appends to the log: nothing, or the one access at the
    address [locate] gave, through the driver's instance and base, a
    read for a read entry point and a write for a write entry point. *)
Lemma exec_accesses (c : call) (s s' : State) (status : asynStatus) (u' : asynUser) :
  exec c s = Some (status, u', s') ->
  accesses s' = accesses s \/
  exists a,
    accesses s' = accesses s ++ [a] /\
    _vme (this s) = Some (access_vme a) /\
    access_base a = _base (this s) /\
    locate (this s) (call_function c) (call_addr s c) = At (access_addr a) /\
    is_read_access a = is_read_call c.
Proof.
  intros H. apply exec_ran in H.
  destruct H as [ | | | vme x a e s1 _ _ Hloc Hvme Ha1 Ha2 Ha3 _ _ Hacc Hrd
                | vme x a st u ps s1 _ _ Hloc Hvme Ha1 Ha2 Ha3 _ _ Hacc Hrd ]; auto.
  - right. exists a. subst vme x. auto.
  - right. exists a. subst vme x. auto.
Qed.

(** The same, for whatever list the log grew by. *)
Lemma exec_performed (c : call) (s s' : State) (status : asynStatus) (u' : asynUser)
    (performed : list VmeAccess) :
  exec c s = Some (status, u', s') ->
  accesses s' = accesses s ++ performed ->
  performed = [] \/
  exists a,
    performed = [a] /\
    _vme (this s) = Some (access_vme a) /\
    access_base a = _base (this s) /\
    locate (this s) (call_function c) (call_addr s c) = At (access_addr a) /\
    is_read_access a = is_read_call c.
Proof.
  intros H Hacc. destruct (exec_accesses _ _ _ _ _ H) as [Hsame|(a & Ha & Hrest)].
  - left. rewrite Hsame in Hacc. rewrite <- (app_nil_r (accesses s)) in Hacc at 1.
    apply app_inv_head in Hacc. auto.
  - right. exists a. rewrite Ha in Hacc. apply app_inv_head in Hacc. auto.
Qed.

Lemma run_this (cs : list call) :
  forall s s', run cs s = Some s' ->
    exists ps, this s' = driver_with_params (this s) ps.
Proof.
  induction cs as [|c cs IH]; intros s s'; simpl.
  - intros [= <-]. exists (params (base (this s))). symmetry. apply driver_with_params_same.
  - destruct (exec c s) as [[[st u] s1]|] eqn:E; [ | discriminate ].
    intros H. destruct (IH _ _ H) as [ps Hps].
    destruct (exec_this _ _ _ _ _ E) as [ps1 Hps1].
    exists ps. rewrite Hps, Hps1. reflexivity.
Qed.

(** *** Reachable states hold a constructed driver *)

Lemma reachable_constructed (s : State) : reachable s -> constructed (this s).
Proof.
  induction 1 as [name BA inst garbage b t0 | c s st u s' _ IH Hexec | s b t ps _ IH].
  - exists name, BA, inst, garbage.
    exists (params (base (drvAsynIsegVds_new name BA inst garbage))).
    symmetry. apply driver_with_params_same.
  - destruct IH as (name & BA & inst & garbage & ps0 & Hd).
    destruct (exec_this _ _ _ _ _ Hexec) as [ps Hps].
    exists name, BA, inst, garbage, ps. rewrite Hps, Hd. reflexivity.
  - destruct IH as (name & BA & inst & garbage & ps0 & Hd).
    exists name, BA, inst, garbage, ps. simpl. rewrite Hd. reflexivity.
Qed.

Lemma constructed_maxAddr (d : drvAsynIsegVds) :
  constructed d -> maxAddr (base d) = 8.
Proof.
  intros (name & BA & [vme|] & garbage & ps & ->);
    unfold drvAsynIsegVds_new, driver_with_params, with_params, asynPortDriver_new;
    cbn [base maxAddr]; reflexivity.
Qed.

(** The tables of a constructed driver: filled by the insert calls
    when a [VmeMaster] was found, empty when not. *)
Lemma constructed_tables (d : drvAsynIsegVds) :
  constructed d ->
  (_vme d <> None /\
   _modcmds d = insert_all (idx d) modOffsets /\
   _chancmds d = insert_all (idx d) chanOffsets) \/
  (_vme d = None /\ _modcmds d = ∅ /\ _chancmds d = ∅).
Proof.
  intros (name & BA & [vme|] & garbage & ps & ->);
    unfold drvAsynIsegVds_new, driver_with_params;
    cbn [_vme _modcmds _chancmds idx].
  - left. split; [ discriminate | split; reflexivity ].
  - right. split; [ reflexivity | split; reflexivity ].
Qed.

Lemma constructed_modcmds (d : drvAsynIsegVds) (k off : Z) :
  constructed d -> _modcmds d !! k = Some off -> 0 <= off <= 0x4c.
Proof.
  intros Hd. destruct (constructed_tables d Hd) as [(_ & -> & _)|(_ & -> & _)].
  - intros H. apply insert_all_lookup in H. destruct H as (p & Hp & _).
    eapply modOffsets_range, Hp.
  - rewrite lookup_empty. discriminate.
Qed.

Lemma constructed_chancmds (d : drvAsynIsegVds) (k off : Z) :
  constructed d -> _chancmds d !! k = Some off -> 0 <= off <= 0x24.
Proof.
  intros Hd. destruct (constructed_tables d Hd) as [(_ & _ & ->)|(_ & _ & ->)].
  - intros H. apply insert_all_lookup in H. destruct H as (p & Hp & _).
    eapply chanOffsets_range, Hp.
  - rewrite lookup_empty. discriminate.
Qed.

Lemma constructed_sizes (d : drvAsynIsegVds) :
  constructed d -> (size (_modcmds d) <= 16)%nat /\ (size (_chancmds d) <= 10)%nat.
Proof.
  intros Hd. destruct (constructed_tables d Hd) as [(_ & -> & ->)|(_ & -> & ->)].
  - split; [ apply (insert_all_size _ modOffsets) | apply (insert_all_size _ chanOffsets) ].
  - rewrite !map_size_empty. lia.
Qed.



(** On a constructed driver the 32-bit sums of [locate] do not wrap. *)
Lemma locate_vmeAddress (d : drvAsynIsegVds) (function addr x : Z) :
  constructed d ->
  locate d function addr = At x ->
  vmeAddress (_modcmds d) (_chancmds d) function addr = Some x.
Proof.
  intros Hd. unfold locate, vmeAddress, u32.
  destruct (_modcmds d !! function) as [off|] eqn:Em.
  - apply (constructed_modcmds _ _ _ Hd) in Em. intros [= <-].
    f_equal. rewrite Z.mod_small; lia.
  - destruct (_chancmds d !! function) as [off|] eqn:Ec; [ | discriminate ].
    apply (constructed_chancmds _ _ _ Hd) in Ec.
    destruct (chanAddr_at addr) as [c|] eqn:Ea; [ | discriminate ].
    apply chanAddr_at_range in Ea. intros [= <-]. f_equal.
    rewrite (Z.mod_small (0 + c)) by lia. rewrite Z.mod_small; lia.
Qed.



(** *** Lookups that cannot go wrong *)

Lemma locate_in_bounds (d : drvAsynIsegVds) (function addr a : Z) :
  0 <= addr < 8 -> locate d function addr <> OutOfBounds a.
Proof.
  intros Ha. unfold locate.
  destruct (_modcmds d !! function); [ discriminate | ].
  destruct (_chancmds d !! function); [ | discriminate ].
  destruct (chanAddr_at_defined addr Ha) as [c ->]. discriminate.
Qed.

Lemma locate_null (d : drvAsynIsegVds) (function addr : Z) :
  constructed d -> _vme d = None -> locate d function addr = NotFound.
Proof.
  intros Hd Hv. destruct (constructed_tables d Hd) as [(Hn & _)|(_ & Hm & Hc)].
  - contradiction.
  - unfold locate. rewrite Hm, Hc, !lookup_empty. reflexivity.
Qed.


(** The inserts from any start: a key the start holds keeps its value,
    any other key gets the offset of the first pair inserted under it. *)
Lemma fold_insert_find (ix : member -> Z) (l : list (member * Z)) :
  forall (m0 : gmap Z Z) (k : Z),
    fold_left (fun m mo => map_insert m (ix mo.1, mo.2)) l m0 !! k
    = match m0 !! k with
      | Some x => Some x
      | None => snd <$> find (fun mo => ix mo.1 =? k) l
      end.
Proof.
  induction l as [|[p off] l IH]; intros m0 k; simpl.
  - destruct (m0 !! k); reflexivity.
  - rewrite IH. unfold map_insert. simpl.
    destruct (ix p =? k) eqn:E.
    + apply Z.eqb_eq in E. subst k.
      destruct (m0 !! ix p) eqn:E0.
      * rewrite E0. reflexivity.
      * rewrite lookup_insert_eq. reflexivity.
    + apply Z.eqb_neq in E.
      destruct (m0 !! ix p) eqn:E0.
      * reflexivity.
      * rewrite lookup_insert_ne by assumption. reflexivity.
Qed.

(** With a [VmeMaster] found, each table holds under a key the offset of
    the first pair of its insert list that carries the key. *)
Lemma constructed_find (d : drvAsynIsegVds) (k : Z) :
  constructed d ->
  _vme d <> None ->
  _modcmds d !! k = snd <$> find (fun mo => idx d mo.1 =? k) modOffsets /\
  _chancmds d !! k = snd <$> find (fun mo => idx d mo.1 =? k) chanOffsets.
Proof.
  intros Hd Hv. destruct (constructed_tables d Hd) as [(_ & Hm & Hc)|(Hn & _)];
    [ | contradiction ].
  rewrite Hm, Hc. unfold insert_all.
  rewrite (fold_insert_find (idx d) modOffsets ∅ k),
          (fold_insert_find (idx d) chanOffsets ∅ k), lookup_empty.
  split; reflexivity.
Qed.


(** Two calls that agree on the tables, the identifier and the channel
    address access the same address. *)
Lemma exec_same_address (c1 c2 : call) (s1 s2 s1' s2' : State)
    (st1 st2 : asynStatus) (u1 u2 : asynUser) (a1 a2 : VmeAccess) :
  constructed (this s1) -> constructed (this s2) ->
  exec c1 s1 = Some (st1, u1, s1') -> accesses s1' = accesses s1 ++ [a1] ->
  exec c2 s2 = Some (st2, u2, s2') -> accesses s2' = accesses s2 ++ [a2] ->
  _modcmds (this s2) = _modcmds (this s1) ->
  _chancmds (this s2) = _chancmds (this s1) ->
  call_function c2 = call_function c1 ->
  call_addr s2 c2 = call_addr s1 c1 ->
  access_addr a2 = access_addr a1.
Proof.
  intros Hd1 Hd2 E1 Ha1 E2 Ha2 Hm Hc Hf Ha.
  destruct (exec_performed _ _ _ _ _ _ E1 Ha1) as [H|(b1 & H1 & _ & _ & Hloc1 & _)];
    [ discriminate H | injection H1 as -> ].
  destruct (exec_performed _ _ _ _ _ _ E2 Ha2) as [H|(b2 & H2 & _ & _ & Hloc2 & _)];
    [ discriminate H | injection H2 as -> ].
  apply (locate_vmeAddress _ _ _ _ Hd1) in Hloc1.
  apply (locate_vmeAddress _ _ _ _ Hd2) in Hloc2.
  rewrite Hm, Hc, Hf, Ha in Hloc2. congruence.
Qed.

(** *** The claims that need nothing of the libraries *)


(** C3.  A call appends at most one access to the log, and when the bus
    operation of that access throws, the call returns [asynError] with
    the driver object untouched. *)
Theorem C3_single_attempt (c : call) (s s' : State) (status : asynStatus) (u' : asynUser) :
  exec c s = Some (status, u', s') ->
  exists performed,
    accesses s' = accesses s ++ performed /\
    (length performed <= 1)%nat /\
    forall a e, In a performed -> thrown (bus s) a = Some e ->
      status = asynError /\ performed = [a] /\ this s' = this s.
Proof.
  intros Hexec. apply exec_ran in Hexec.
  destruct Hexec as [ | | | vme x a e s1 _ _ _ _ _ _ _ Hthrown Hthis Hacc _
                    | vme x a st u ps s1 _ _ _ _ _ _ _ Hthrown _ Hacc _ ].
  1-3: exists []; rewrite app_nil_r; split; [ reflexivity | split; [ simpl; lia | intros ? ? [] ] ].
  - exists [a]. split; [ exact Hacc | split; [ simpl; lia | ] ].
    intros a' e' [<-|[]] _. auto.
  - exists [a]. split; [ exact Hacc | split; [ simpl; lia | ] ].
    intros a' e' [<-|[]] H. congruence.
Qed.

(** C5.  [writeUInt32Digital] for [P_ModStatus] or [P_ChanStatus], and
    [writeFloat64] for any of the eight members it lists, return
    [asynSuccess] and leave the whole state, log and parameter library
    included, and the user as they were. *)
Theorem C5_readonly_writes (s : State) (pasynUser : asynUser) :
  (forall value mask p,
     In p [P_ModStatus; P_ChanStatus] ->
     reason pasynUser = idx (this s) p ->
     writeUInt32Digital pasynUser value mask s = Returned asynSuccess pasynUser tt s) /\
  (forall value p,
     In p [P_VMax; P_IMax; P_SupplyP5; P_SupplyP12; P_SupplyN12; P_Temperature;
           P_ChanVmom; P_ChanImom] ->
     reason pasynUser = idx (this s) p ->
     writeFloat64 pasynUser value s = Returned asynSuccess pasynUser tt s).
Proof.
  split.
  - intros value mask p Hp Hr. unfold writeUInt32Digital.
    replace (readonly_uint32 (this s) (reason pasynUser)) with true; [ reflexivity | ].
    symmetry. unfold readonly_uint32. rewrite Hr, orb_true_iff, !Z.eqb_eq.
    cbn [In] in Hp. intuition (subst; auto).
  - intros value p Hp Hr. unfold writeFloat64.
    replace (readonly_float64 (this s) (reason pasynUser)) with true; [ reflexivity | ].
    symmetry. unfold readonly_float64. rewrite Hr, !orb_true_iff, !Z.eqb_eq.
    cbn [In] in Hp. intuition (subst; auto 10).
Qed.

(** C6.  The address of every access a call makes is determined by
    three static tables and by nothing else: the two maps from
    identifiers to offsets and the array [chanAddr].  It is the module
    table's offset for the identifier, or [chanAddr[addr]] plus the
    channel table's offset; two calls that agree on the maps, the
    identifier and the channel address access the same address, whatever
    else their states hold.  The maps hold at most 16 and 10 entries,
    the array 8; on a driver that found its [VmeMaster] a map holds
    under every key the offset of the first insert the constructor made
    under it. *)
Theorem C6_three_static_tables (c : call) (s s' : State) (status : asynStatus)
    (u' : asynUser) :
  reachable s ->
  exec c s = Some (status, u', s') ->
  (exists performed,
     accesses s' = accesses s ++ performed /\
     forall a, In a performed ->
       vmeAddress (_modcmds (this s)) (_chancmds (this s))
         (call_function c) (call_addr s c) = Some (access_addr a) /\
       (_modcmds (this s) !! call_function c = Some (access_addr a) \/
        _modcmds (this s) !! call_function c = None /\
        exists off ch,
          _chancmds (this s) !! call_function c = Some off /\
          0 <= call_addr s c /\
          chanAddr !! Z.to_nat (call_addr s c) = Some ch /\
          access_addr a = ch + off) /\
       forall c2 s2 s2' status2 u2 a2,
         reachable s2 ->
         exec c2 s2 = Some (status2, u2, s2') ->
         accesses s2' = accesses s2 ++ [a2] ->
         _modcmds (this s2) = _modcmds (this s) ->
         _chancmds (this s2) = _chancmds (this s) ->
         call_function c2 = call_function c ->
         call_addr s2 c2 = call_addr s c ->
         access_addr a2 = access_addr a) /\
  ((size (_modcmds (this s)) <= 16)%nat /\ (size (_chancmds (this s)) <= 10)%nat /\
   length chanAddr = 8%nat) /\
  (_vme (this s) <> None ->
   forall k,
     _modcmds (this s) !! k
     = snd <$> find (fun mo => idx (this s) mo.1 =? k) modOffsets /\
     _chancmds (this s) !! k
     = snd <$> find (fun mo => idx (this s) mo.1 =? k) chanOffsets).
Proof.
  intros Hreach Hexec. pose proof (reachable_constructed s Hreach) as Hd.
  split; [ | split ].
  - destruct (exec_accesses _ _ _ _ _ Hexec) as [Hsame|(a & Hacc & _ & _ & Hloc & _)].
    + exists []. rewrite app_nil_r. split; [ exact Hsame | intros a [] ].
    + exists [a]. split; [ exact Hacc | ].
      intros a' [<-|[]].
      pose proof (locate_vmeAddress _ _ _ _ Hd Hloc) as Hx.
      split; [ exact Hx | split ].
      * unfold vmeAddress in Hx.
        destruct (_modcmds (this s) !! call_function c) as [off|]; [ left; exact Hx | ].
        right. split; [ reflexivity | ].
        destruct (_chancmds (this s) !! call_function c) as [off|]; [ | discriminate Hx ].
        destruct (chanAddr_at (call_addr s c)) as [ch|] eqn:Ech; [ | discriminate Hx ].
        exists off, ch. unfold chanAddr_at in Ech.
        destruct (call_addr s c <? 0) eqn:Elt; [ discriminate Ech | ].
        apply Z.ltb_ge in Elt. injection Hx as <-. auto.
      * intros c2 s2 s2' status2 u2 a2 Hreach2 Hexec2 Hacc2 Hm Hc Hf Ha.
        exact (exec_same_address c c2 s s2 s' s2' status status2 u' u2 a a2
                 Hd (reachable_constructed s2 Hreach2) Hexec Hacc Hexec2 Hacc2 Hm Hc Hf Ha).
  - destruct (constructed_sizes _ Hd) as [Hm Hc]. auto.
  - intros Hv k. exact (constructed_find _ k Hd Hv).
Qed.

(** C8.  Two calls with the same identifier and the same channel
    address, one made before and one after any sequence of calls, and
    through whichever entry points, access the same register address. *)
Theorem C8_no_state_machine (cs : list call) (c1 c2 : call) (s s' s1 s2 : State)
    (st1 st2 : asynStatus) (u1 u2 : asynUser) (performed1 performed2 : list VmeAccess) :
  exec c1 s = Some (st1, u1, s1) ->
  run cs s = Some s' ->
  exec c2 s' = Some (st2, u2, s2) ->
  call_function c1 = call_function c2 ->
  call_addr s c1 = call_addr s' c2 ->
  accesses s1 = accesses s ++ performed1 ->
  accesses s2 = accesses s' ++ performed2 ->
  forall a1 a2, In a1 performed1 -> In a2 performed2 -> access_addr a1 = access_addr a2.
Proof.
  intros H1 Hrun H2 Hf Ha Hp1 Hp2 a1 a2 Hin1 Hin2.
  destruct (run_this _ _ _ Hrun) as [ps Hps].
  destruct (exec_performed _ _ _ _ _ _ H1 Hp1) as [->|(b1 & -> & _ & _ & Hloc1 & _)];
    [ destruct Hin1 | ].
  destruct (exec_performed _ _ _ _ _ _ H2 Hp2) as [->|(b2 & -> & _ & _ & Hloc2 & _)];
    [ destruct Hin2 | ].
  destruct Hin1 as [<-|[]]. destruct Hin2 as [<-|[]].
  rewrite Hps, <- Hf, <- Ha in Hloc2.
  change (locate (driver_with_params (this s) ps) (call_function c1) (call_addr s c1))
    with (locate (this s) (call_function c1) (call_addr s c1)) in Hloc2.
  rewrite Hloc1 in Hloc2. injection Hloc2 as ->. reflexivity.
Qed.

(** The instance and the base address of a driver stay what they were
    through any sequence of calls, and every logged access, old or new,
    went through them. *)
Lemma run_log (cs : list call) :
  forall s s',
    run cs s = Some s' ->
    (forall a, In a (accesses s) ->
       _vme (this s) = Some (access_vme a) /\ access_base a = _base (this s)) ->
    _vme (this s') = _vme (this s) /\ _base (this s') = _base (this s) /\
    forall a, In a (accesses s') ->
      _vme (this s) = Some (access_vme a) /\ access_base a = _base (this s).
Proof.
  induction cs as [|c cs IH]; intros s s'; simpl.
  - intros [= <-] Hlog. auto.
  - destruct (exec c s) as [[[st u] s1]|] eqn:E; [ | discriminate ].
    intros Hrun Hlog.
    destruct (exec_this _ _ _ _ _ E) as [ps Hps].
    assert (Hv : _vme (this s1) = _vme (this s)) by (rewrite Hps; reflexivity).
    assert (Hb : _base (this s1) = _base (this s)) by (rewrite Hps; reflexivity).
    assert (Hlog1 : forall a, In a (accesses s1) ->
              _vme (this s1) = Some (access_vme a) /\ access_base a = _base (this s1)).
    { rewrite Hv, Hb.
      destruct (exec_accesses _ _ _ _ _ E) as [->|(a & -> & Hav & Hab & _)].
      - exact Hlog.
      - intros a' Hin. apply in_app_or in Hin. destruct Hin as [Hin|[<-|[]]]; auto. }
    destruct (IH _ _ Hrun Hlog1) as (Hv' & Hb' & Hlog').
    rewrite Hv', Hb', Hv, Hb. rewrite Hv, Hb in Hlog'. auto.
Qed.

(** C10.  After any sequence of calls on a freshly constructed driver,
    [_vme] is still the instance [getInstance()] returned and [_base]
    still [BA], and every access in the log was made through that
    instance with that base address. *)
Theorem C10_one_instance_one_base (name : string) (BA : Z)
    (getInstance : option VmeMaster) (garbage : member -> Z)
    (b : VmeBus) (t0 : epicsTimeStamp) (cs : list call) (s : State) :
  run cs (initial name BA getInstance garbage b t0) = Some s ->
  _vme (this s) = getInstance /\ _base (this s) = BA /\
  forall a, In a (accesses s) ->
    getInstance = Some (access_vme a) /\ access_base a = BA.
Proof.
  intros Hrun.
  assert (Hv : _vme (this (initial name BA getInstance garbage b t0)) = getInstance).
  { unfold initial, drvAsynIsegVds_new. destruct getInstance; reflexivity. }
  assert (Hb : _base (this (initial name BA getInstance garbage b t0)) = BA).
  { unfold initial, drvAsynIsegVds_new. destruct getInstance; reflexivity. }
  destruct (run_log _ _ _ Hrun) as (Hv' & Hb' & Hlog).
  { intros a []. }
  rewrite Hv in Hv', Hlog. rewrite Hb in Hb', Hlog. auto.
Qed.

(** *** The claims that rest on what asyn promises *)

Section AddressStatus.
(** [getAddress] reports [asynSuccess] or [asynError], nothing else. *)
Hypothesis getAddress_status :
  forall n u address,
    (getAddress n u address).1 = asynSuccess \/ (getAddress n u address).1 = asynError.

End AddressStatus.

Section AddressRange.
(** A successful [getAddress] reports an address below [maxAddr]. *)
Hypothesis getAddress_range :
  forall n u address a,
    getAddress n u address = (asynSuccess, a) -> 0 <= a < n.

Ltac in_range Ha :=
  match goal with
  | Hd : constructed (this ?s), E : getAddress _ _ _ = (?st, ?a), F : failed ?st = false |- _ =>
      assert (Ha : 0 <= a < 8);
      [ destruct st; try discriminate F;
        rewrite (constructed_maxAddr _ Hd) in E;
        exact (getAddress_range _ _ _ _ E) | ]
  end.

Ltac no_undefined :=
  match goal with
  | Hd : constructed (this ?s), E : locate (this ?s) _ ?a = OutOfBounds _ |- _ =>
      let Ha := fresh "Ha" in
      in_range Ha; exact (locate_in_bounds _ _ _ _ Ha E)
  | Hd : constructed (this ?s), E : locate (this ?s) ?f ?a = At _,
    H : vme_read ?s _ = None |- _ =>
      unfold vme_read in H; destruct (_vme (this s)) eqn:Hv; [ discriminate H | ];
      rewrite (locate_null _ f a Hd Hv) in E; discriminate E
  | Hd : constructed (this ?s), E : locate (this ?s) ?f ?a = At _,
    H : vme_write ?s _ _ = None |- _ =>
      unfold vme_write in H; destruct (_vme (this s)) eqn:Hv; [ discriminate H | ];
      rewrite (locate_null _ f a Hd Hv) in E; discriminate E
  end.

(** C9.  On a driver in a reachable state the address a successful
    [getAddress] delivers lies in 0..7, [chanAddr] has an element
    there, and no call runs into behaviour C++ leaves undefined. *)
Theorem C9_chanAddr_in_bounds (c : call) (s : State) :
  reachable s ->
  (forall a,
     getAddress (maxAddr (base (this s))) (call_user c) 0 = (asynSuccess, a) ->
     0 <= a < 8 /\ is_Some (chanAddr_at a)) /\
  (forall u value mask a,
     readUInt32Digital u value mask s <> Undefined (ChanAddrOutOfBounds a) /\
     writeUInt32Digital u value mask s <> Undefined (ChanAddrOutOfBounds a)) /\
  (forall u value a,
     readFloat64 u value s <> Undefined (ChanAddrOutOfBounds a) /\
     writeFloat64 u value s <> Undefined (ChanAddrOutOfBounds a)) /\
  exec c s <> None.
Proof.
  intros Hreach. pose proof (reachable_constructed s Hreach) as Hd.
  split; [ | split; [ | split ] ].
  - intros a Ha. rewrite (constructed_maxAddr _ Hd) in Ha.
    apply getAddress_range in Ha. split; [ exact Ha | apply chanAddr_at_defined, Ha ].
  - intros u value mask a. split; intros H;
      unfold readUInt32Digital, writeUInt32Digital in H; paths H; no_undefined.
  - intros u value a. split; intros H;
      unfold readFloat64, writeFloat64 in H; paths H; no_undefined.
  - intros H. destruct c as [u v m|u v m|u v|u v];
      unfold exec, readUInt32Digital, writeUInt32Digital, readFloat64, writeFloat64 in H;
      paths H; no_undefined.
Qed.
End AddressRange.

(** *** Values on their way between register and parameter *)

Ltac no_access Hacc :=
  exfalso; simpl in Hacc;
  match type of Hacc with
  | ?l = ?l ++ [_] =>
      rewrite <- (app_nil_r l) in Hacc at 1; apply app_inv_head in Hacc; discriminate Hacc
  end.

(** C7.  A read entry point only reads and a write entry point only
    writes a register.  [readFloat64] hands to [setDoubleParam] the
    register content taken as a single-precision float and widened,
    after a multiplication by 1e6 for [P_ChanImom] and [P_ChanIset], and
    returns what [getDoubleParam] then answers.  [writeFloat64] writes
    the bits of the value narrowed to single precision, after a
    multiplication by 1e-6 for [P_ChanIset]. *)
Theorem C7_register_is_binary32 :
  (forall c s status u' s' performed a,
     exec c s = Some (status, u', s') ->
     accesses s' = accesses s ++ performed ->
     In a performed -> is_read_access a = is_read_call c) /\
  (forall pasynUser value s status u' value' s' a,
     readFloat64 pasynUser value s = Returned status u' value' s' ->
     accesses s' = accesses s ++ [a] ->
     thrown (bus s) a = None ->
     exists vme vmeAddr vmeData,
       a = ReadA16D32 vme (_base (this s)) vmeAddr /\
       (readRegisterA16D32 vme (_base (this s)) vmeAddr (bus s)).1 = inr vmeData /\
       let function := reason pasynUser in
       let addr := (getAddress (maxAddr (base (this s))) pasynUser 0).2 in
       let x := float32_of_bits vmeData in
       let x :=
         if (function =? idx (this s) P_ChanImom) || (function =? idx (this s) P_ChanIset)
         then float32_of_float64 (float64_mul (float64_of_float32 x) float64_1e6)
         else x in
       params (base (this s'))
       = (setDoubleParam addr function (float64_of_float32 x) (params (base (this s)))).2 /\
       getDoubleParam addr function value (params (base (this s'))) = (status, value')) /\
  (forall pasynUser value s status u' s' a,
     writeFloat64 pasynUser value s = Returned status u' tt s' ->
     accesses s' = accesses s ++ [a] ->
     exists vme vmeAddr,
       let x := float32_of_float64 value in
       let x :=
         if reason pasynUser =? idx (this s) P_ChanIset
         then float32_of_float64 (float64_mul (float64_of_float32 x) float64_1em6)
         else x in
       a = WriteA16D32 vme (_base (this s)) vmeAddr (bits_of_float32 x)).
Proof.
  split; [ | split ].
  - intros c s status u' s' performed a H Hacc Hin.
    destruct (exec_performed _ _ _ _ _ _ H Hacc) as [->|(b & -> & _ & _ & _ & Hrd)].
    + destruct Hin.
    + destruct Hin as [<-|[]]. exact Hrd.
  - intros u value s status u' value' s' a H Hacc Hthrown.
    unfold readFloat64 in H. paths H; injection H as <- <- <- <-; simpl in Hacc.
    1-2: no_access Hacc.
    all: revert Hacc; match goal with E : accesses _ = _ |- _ => rewrite E end;
         intros Hacc; apply app_inv_head in Hacc; injection Hacc as <-.
    1: simpl in Hthrown;
       match goal with E : readRegisterA16D32 _ _ _ _ = _ |- _ =>
         rewrite E in Hthrown; discriminate Hthrown end.
    all: match goal with
         | Ev : _vme _ = Some ?vme, Er : readRegisterA16D32 ?vme _ ?x _ = (inr ?d, _),
           Et : this _ = this _,
           Es : setDoubleParam _ _ _ _ = _, Eg : getDoubleParam _ _ _ _ = _ |- _ =>
             exists vme, x, d; rewrite Er; rewrite Et in Es;
             split; [ reflexivity | split; [ reflexivity | ] ];
             cbv zeta; simpl;
             match type of Es with context [if ?b then _ else _] => destruct b end;
             simpl in Es; rewrite Es; simpl; auto
         end.
  - intros u value s status u' s' a H Hacc.
    unfold writeFloat64 in H. paths H; injection H as <- <- <-; simpl in Hacc.
    1-3: no_access Hacc.
    all: revert Hacc; match goal with E : accesses _ = _ |- _ => rewrite E end;
         intros Hacc; apply app_inv_head in Hacc; injection Hacc as <-.
    all: match goal with
         | |- context [WriteA16D32 ?vme _ ?x _ = _] =>
             exists vme, x; cbv zeta;
             match goal with |- context [if ?b then _ else _] => destruct b end;
             reflexivity
         end.
Qed.

Section ParameterLibrary.
(** A parameter read back right after it was set, under the same
    mask, is the value that was set, masked; a double parameter is
    the value that was set. *)
Hypothesis uint32_get_set :
  forall l i v m old ps,
    (getUIntDigitalParam l i old m (setUIntDigitalParam l i v m ps).2).1 = asynSuccess ->
    (getUIntDigitalParam l i old m (setUIntDigitalParam l i v m ps).2).2 = Z.land v m.
Hypothesis double_get_set :
  forall l i x old ps,
    (getDoubleParam l i old (setDoubleParam l i x ps).2).1 = asynSuccess ->
    (getDoubleParam l i old (setDoubleParam l i x ps).2).2 = x.

(** C2.  A read entry point that returns [asynSuccess] has read the
    register once in this call, and [*value] is that content: under
    the mask for [readUInt32Digital]; taken as a single-precision
    float, multiplied by 1e6 for the two current members and widened
    for [readFloat64]. *)
Theorem C2_reads_are_fresh :
  (forall pasynUser value mask s u' value' s',
     readUInt32Digital pasynUser value mask s = Returned asynSuccess u' value' s' ->
     exists vme vmeAddr vmeData,
       _vme (this s) = Some vme /\
       accesses s' = accesses s ++ [ReadA16D32 vme (_base (this s)) vmeAddr] /\
       (readRegisterA16D32 vme (_base (this s)) vmeAddr (bus s)).1 = inr vmeData /\
       value' = Z.land vmeData mask) /\
  (forall pasynUser value s u' value' s',
     readFloat64 pasynUser value s = Returned asynSuccess u' value' s' ->
     exists vme vmeAddr vmeData,
       _vme (this s) = Some vme /\
       accesses s' = accesses s ++ [ReadA16D32 vme (_base (this s)) vmeAddr] /\
       (readRegisterA16D32 vme (_base (this s)) vmeAddr (bus s)).1 = inr vmeData /\
       let function := reason pasynUser in
       let x := float32_of_bits vmeData in
       let x :=
         if (function =? idx (this s) P_ChanImom) || (function =? idx (this s) P_ChanIset)
         then float32_of_float64 (float64_mul (float64_of_float32 x) float64_1e6)
         else x in
       value' = float64_of_float32 x).
Proof.
  split.
  - intros u value mask s u' value' s' H.
    unfold readUInt32Digital in H. paths H; injection H as H <- <- <-; subst.
    all: try discriminate.
    match goal with
    | Ev : _vme _ = Some ?vme, Er : readRegisterA16D32 ?vme _ ?x _ = (inr ?d, _),
      Et : this _ = this _, Ea : accesses _ = _,
      Es : setUIntDigitalParam _ _ _ _ _ = _, Eg : getUIntDigitalParam _ _ _ _ _ = _ |- _ =>
        exists vme, x, d; rewrite Er; simpl; rewrite Ea;
        split; [ assumption | split; [ reflexivity | split; [ reflexivity | ] ] ];
        simpl in Eg;
        match type of Es with setUIntDigitalParam ?l ?i ?v ?m ?ps = _ =>
          pose proof (uint32_get_set l i v m value ps) as Hlaw end;
        rewrite Es in Hlaw; simpl in Hlaw; rewrite Eg in Hlaw; simpl in Hlaw;
        apply Hlaw; reflexivity
    end.
  - intros u value s u' value' s' H.
    unfold readFloat64 in H. paths H; injection H as H <- <- <-; subst.
    all: try discriminate.
    match goal with
    | Ev : _vme _ = Some ?vme, Er : readRegisterA16D32 ?vme _ ?x _ = (inr ?d, _),
      Et : this _ = this _, Ea : accesses _ = _,
      Es : setDoubleParam _ _ _ _ = _, Eg : getDoubleParam _ _ _ _ = _ |- _ =>
        exists vme, x, d; rewrite Er; simpl; rewrite Ea;
        split; [ assumption | split; [ reflexivity | split; [ reflexivity | ] ] ];
        simpl in Eg; rewrite Et in Es;
        match type of Es with setDoubleParam ?l ?i ?v ?ps = _ =>
          pose proof (double_get_set l i v value ps) as Hlaw end;
        rewrite Es in Hlaw; simpl in Hlaw; rewrite Eg in Hlaw; simpl in Hlaw;
        rewrite (Hlaw eq_refl);
        match goal with |- context [if ?b then _ else _] => destruct b end;
        reflexivity
    end.
Qed.
End ParameterLibrary.

(** ** Beyond the claims: the tables the constructor builds *)

Lemma fold_insert_size_fresh (ix : member -> Z) (l : list (member * Z)) :
  forall m0 : gmap Z Z,
    NoDup (map (fun mo => ix mo.1) l) ->
    (forall mo, In mo l -> m0 !! ix mo.1 = None) ->
    size (fold_left (fun m mo => map_insert m (ix mo.1, mo.2)) l m0)
    = (size m0 + length l)%nat.
Proof.
  induction l as [|[p off] l IH]; intros m0 Hnd Hfresh;
    cbn [map fold_left length fst snd] in *.
  - lia.
  - apply NoDup_cons in Hnd. destruct Hnd as [Hp Hnd].
    assert (H0 : m0 !! ix p = None) by (apply (Hfresh (p, off)); left; reflexivity).
    rewrite IH.
    + unfold map_insert. cbn [fst snd]. rewrite H0.
      rewrite map_size_insert_None by assumption. lia.
    + exact Hnd.
    + intros [q off'] Hin. unfold map_insert. cbn [fst snd]. rewrite H0.
      rewrite lookup_insert_ne.
      * apply (Hfresh (q, off')). right. exact Hin.
      * intros Heq. apply Hp. apply list_elem_of_In.
        apply (in_map (fun mo => ix mo.1)) in Hin. cbn [fst] in Hin.
        rewrite Heq. exact Hin.
Qed.

(** With indices that tell the members apart, looking for a member's
    index finds the member's own pair. *)
Lemma find_own_pair (ix : member -> Z) (l : list (member * Z)) (p : member) (off : Z) :
  (forall q r, ix q = ix r -> q = r) ->
  NoDup (map fst l) ->
  In (p, off) l ->
  find (fun mo => ix mo.1 =? ix p) l = Some (p, off).
Proof.
  intros Hinj. induction l as [|[q off'] l IH]; simpl; intros Hnd Hin.
  - destruct Hin.
  - apply NoDup_cons in Hnd. destruct Hnd as [Hq Hnd].
    destruct Hin as [[= -> ->]|Hin].
    + rewrite Z.eqb_refl. reflexivity.
    + destruct (ix q =? ix p) eqn:E.
      * apply Z.eqb_eq, Hinj in E. subst q. exfalso. apply Hq.
        apply list_elem_of_In. apply (in_map fst) in Hin. exact Hin.
      * apply IH; assumption.
Qed.

Lemma find_no_pair (ix : member -> Z) (l : list (member * Z)) (p : member) :
  (forall q r, ix q = ix r -> q = r) ->
  ~ In p (map fst l) ->
  find (fun mo => ix mo.1 =? ix p) l = None.
Proof.
  intros Hinj. induction l as [|[q off'] l IH]; simpl; intros Hnot.
  - reflexivity.
  - destruct (ix q =? ix p) eqn:E.
    + apply Z.eqb_eq, Hinj in E. subst q. exfalso. apply Hnot. auto.
    + apply IH. intros Hin. apply Hnot. auto.
Qed.

Lemma offsets_members :
  NoDup (map fst modOffsets) /\ NoDup (map fst chanOffsets) /\
  (forall p, In p (map fst modOffsets) -> ~ In p (map fst chanOffsets)).
Proof.
  split; [ | split ].
  - apply (bool_decide_unpack _). vm_compute. reflexivity.
  - apply (bool_decide_unpack _). vm_compute. reflexivity.
  - intros p Hm Hc. unfold modOffsets, chanOffsets in *. cbn [map fst In] in *.
    repeat (destruct Hm as [<-|Hm];
            [ repeat (destruct Hc as [Hc|Hc]; [ discriminate Hc | ]); destruct Hc | ]).
    destruct Hm.
Qed.

(** No two inserts into a table use the same offset. *)
Lemma offsets_distinct (p q : member) (off : Z) :
  (In (p, off) modOffsets -> In (q, off) modOffsets -> p = q) /\
  (In (p, off) chanOffsets -> In (q, off) chanOffsets -> p = q).
Proof.
  assert (Hgen : forall l : list (member * Z),
            NoDup (map snd l) -> In (p, off) l -> In (q, off) l -> p = q).
  { induction l as [|[r o] l IH]; simpl; intros Hnd Hp Hq.
    - destruct Hp.
    - apply NoDup_cons in Hnd. destruct Hnd as [Hr Hnd].
      destruct Hp as [[= -> ->]|Hp], Hq as [[= ->]|Hq].
      + reflexivity.
      + exfalso. apply Hr. apply list_elem_of_In.
        apply (in_map snd) in Hq. exact Hq.
      + subst o. exfalso. apply Hr. apply list_elem_of_In.
        apply (in_map snd) in Hp. exact Hp.
      + apply IH; assumption. }
  split; apply Hgen; apply (bool_decide_unpack _); vm_compute; reflexivity.
Qed.

Lemma offsets_aligned (p : member) (off : Z) :
  In (p, off) modOffsets \/ In (p, off) chanOffsets -> off mod 4 = 0.
Proof.
  unfold modOffsets, chanOffsets. simpl.
  intros [H|H]; repeat (destruct H as [[= _ <-]|H]; [ reflexivity | ]); destruct H.
Qed.

(** Channel [addr] starts at 0x100 + 0x40 * addr. *)
Lemma chanAddr_at_value (addr c : Z) :
  chanAddr_at addr = Some c -> 0 <= addr < 8 /\ c = 0x100 + 0x40 * addr.
Proof.
  unfold chanAddr_at. destruct (addr <? 0) eqn:E; [ discriminate | ].
  apply Z.ltb_ge in E. intros H.
  remember (Z.to_nat addr) as n eqn:Hn.
  unfold chanAddr in H.
  destruct n as [|[|[|[|[|[|[|[|n]]]]]]]]; simpl in H;
    try (injection H as <-; lia); discriminate.
Qed.

(** X1.  On a driver that found its [VmeMaster], each table holds for a
    key the offset of the first insert made under that key: when two
    members carry the same index, the later insert is lost. *)
Theorem X1_first_insert_wins (d : drvAsynIsegVds) (k : Z) :
  constructed d ->
  _vme d <> None ->
  _modcmds d !! k = snd <$> find (fun mo => idx d mo.1 =? k) modOffsets /\
  _chancmds d !! k = snd <$> find (fun mo => idx d mo.1 =? k) chanOffsets.
Proof.
  intros Hd Hv. destruct (constructed_tables d Hd) as [(_ & Hm & Hc)|(Hn & _)].
  - rewrite Hm, Hc. unfold insert_all.
    rewrite (fold_insert_find (idx d) modOffsets ∅ k).
    rewrite (fold_insert_find (idx d) chanOffsets ∅ k).
    rewrite lookup_empty. split; reflexivity.
  - contradiction.
Qed.

(** X2.  When [createParam] gave the members pairwise different indices,
    every member is a key of its own table only, with the offset of its
    own insert, and the tables hold exactly 16 and 10 entries. *)
Theorem X2_distinct_indices (d : drvAsynIsegVds) :
  constructed d ->
  _vme d <> None ->
  (forall q r, idx d q = idx d r -> q = r) ->
  (forall p off, In (p, off) modOffsets ->
     _modcmds d !! idx d p = Some off /\ _chancmds d !! idx d p = None) /\
  (forall p off, In (p, off) chanOffsets ->
     _chancmds d !! idx d p = Some off /\ _modcmds d !! idx d p = None) /\
  size (_modcmds d) = 16%nat /\ size (_chancmds d) = 10%nat.
Proof.
  intros Hd Hv Hinj.
  destruct offsets_members as (Hm & Hc & Hmc).
  assert (Hmod : forall k,
            _modcmds d !! k = snd <$> find (fun mo => idx d mo.1 =? k) modOffsets /\
            _chancmds d !! k = snd <$> find (fun mo => idx d mo.1 =? k) chanOffsets).
  { intros k. destruct (constructed_tables d Hd) as [(_ & -> & ->)|(Hn & _)];
      [ | contradiction ].
    unfold insert_all. rewrite !fold_insert_find, !lookup_empty. split; reflexivity. }
  split; [ | split; [ | split ] ].
  - intros p off Hin. rewrite (proj1 (Hmod (idx d p))), (proj2 (Hmod (idx d p))).
    rewrite (find_own_pair _ _ _ _ Hinj Hm Hin).
    rewrite (find_no_pair _ chanOffsets p Hinj); [ auto | ].
    apply Hmc. apply (in_map fst) in Hin. exact Hin.
  - intros p off Hin. rewrite (proj1 (Hmod (idx d p))), (proj2 (Hmod (idx d p))).
    rewrite (find_own_pair _ _ _ _ Hinj Hc Hin).
    rewrite (find_no_pair _ modOffsets p Hinj); [ auto | ].
    intros Hp. apply (Hmc p Hp). apply (in_map fst) in Hin. exact Hin.
  - destruct (constructed_tables d Hd) as [(_ & -> & _)|(Hn & _)]; [ | contradiction ].
    unfold insert_all. rewrite fold_insert_size_fresh.
    + rewrite map_size_empty. reflexivity.
    + clear -Hinj Hm. revert Hm. generalize modOffsets. intros l.
      induction l as [|[q o] l IH]; simpl; intros Hnd; [ constructor | ].
      apply NoDup_cons in Hnd. destruct Hnd as [Hq Hnd]. apply NoDup_cons. split.
      * intros Hin. apply Hq. apply list_elem_of_In in Hin. apply list_elem_of_In.
        apply in_map_iff in Hin. destruct Hin as ([r o'] & Heq & Hin). simpl in Heq.
        apply Hinj in Heq. subst r. apply (in_map fst) in Hin. exact Hin.
      * apply IH, Hnd.
    + intros mo _. apply lookup_empty.
  - destruct (constructed_tables d Hd) as [(_ & _ & ->)|(Hn & _)]; [ | contradiction ].
    unfold insert_all. rewrite fold_insert_size_fresh.
    + rewrite map_size_empty. reflexivity.
    + clear -Hinj Hc. revert Hc. generalize chanOffsets. intros l.
      induction l as [|[q o] l IH]; simpl; intros Hnd; [ constructor | ].
      apply NoDup_cons in Hnd. destruct Hnd as [Hq Hnd]. apply NoDup_cons. split.
      * intros Hin. apply Hq. apply list_elem_of_In in Hin. apply list_elem_of_In.
        apply in_map_iff in Hin. destruct Hin as ([r o'] & Heq & Hin). simpl in Heq.
        apply Hinj in Heq. subst r. apply (in_map fst) in Hin. exact Hin.
      * apply IH, Hnd.
    + intros mo _. apply lookup_empty.
Qed.

(** ** Beyond the claims: which registers a call can reach *)

(** X3.  No two registers coincide: when two identifiers, each with a
    channel address, translate to the same VME address, they are the same
    identifier, and for a channel identifier the same channel. *)
Theorem X3_no_aliasing (d : drvAsynIsegVds) (f1 f2 a1 a2 x : Z) :
  constructed d ->
  vmeAddress (_modcmds d) (_chancmds d) f1 a1 = Some x ->
  vmeAddress (_modcmds d) (_chancmds d) f2 a2 = Some x ->
  f1 = f2 /\ (_modcmds d !! f1 = None -> a1 = a2).
Proof.
  intros Hd H1 H2.
  destruct (constructed_tables d Hd) as [(_ & Hm & Hc)|(_ & Hm & Hc)].
  2: { unfold vmeAddress in H1. rewrite Hm, Hc, !lookup_empty in H1. discriminate. }
  unfold vmeAddress in H1, H2.
  destruct (_modcmds d !! f1) as [o1|] eqn:E1; destruct (_modcmds d !! f2) as [o2|] eqn:E2.
  - injection H1 as ->. injection H2 as ->. rewrite Hm in E1, E2.
    apply insert_all_lookup in E1, E2.
    destruct E1 as (p1 & Hp1 & <-). destruct E2 as (p2 & Hp2 & <-).
    rewrite (proj1 (offsets_distinct p1 p2 x) Hp1 Hp2). split; [ reflexivity | discriminate ].
  - injection H1 as ->. exfalso.
    apply (constructed_modcmds _ _ _ Hd) in E1.
    destruct (_chancmds d !! f2) as [o2|] eqn:C2; [ | discriminate ].
    destruct (chanAddr_at a2) as [c2|] eqn:A2; [ | discriminate ].
    apply (constructed_chancmds _ _ _ Hd) in C2. apply chanAddr_at_range in A2.
    injection H2 as H2. lia.
  - injection H2 as ->. exfalso.
    apply (constructed_modcmds _ _ _ Hd) in E2.
    destruct (_chancmds d !! f1) as [o1|] eqn:C1; [ | discriminate ].
    destruct (chanAddr_at a1) as [c1|] eqn:A1; [ | discriminate ].
    apply (constructed_chancmds _ _ _ Hd) in C1. apply chanAddr_at_range in A1.
    injection H1 as H1. lia.
  - destruct (_chancmds d !! f1) as [o1|] eqn:C1; [ | discriminate ].
    destruct (chanAddr_at a1) as [c1|] eqn:A1; [ | discriminate ].
    destruct (_chancmds d !! f2) as [o2|] eqn:C2; [ | discriminate ].
    destruct (chanAddr_at a2) as [c2|] eqn:A2; [ | discriminate ].
    injection H1 as H1. injection H2 as H2.
    pose proof (constructed_chancmds _ _ _ Hd C1) as R1.
    pose proof (constructed_chancmds _ _ _ Hd C2) as R2.
    apply chanAddr_at_value in A1, A2.
    assert (Ha : a1 = a2) by lia.
    assert (Ho : o1 = o2) by lia. subst o2.
    rewrite Hc in C1, C2. apply insert_all_lookup in C1, C2.
    destruct C1 as (p1 & Hp1 & <-). destruct C2 as (p2 & Hp2 & <-).
    rewrite (proj2 (offsets_distinct p1 p2 o1) Hp1 Hp2). auto.
Qed.

(** X4.  Every access a call makes on a driver in a reachable state is at
    a multiple of four between 0 and 0x2e4. *)
Theorem X4_aligned_in_window (c : call) (s s' : State) (status : asynStatus)
    (u' : asynUser) (performed : list VmeAccess) (a : VmeAccess) :
  reachable s ->
  exec c s = Some (status, u', s') ->
  accesses s' = accesses s ++ performed ->
  In a performed ->
  0 <= access_addr a <= 0x2e4 /\ access_addr a mod 4 = 0.
Proof.
  intros Hreach Hexec Hacc Hin. pose proof (reachable_constructed s Hreach) as Hd.
  destruct (exec_performed _ _ _ _ _ _ Hexec Hacc) as [->|(b & -> & _ & _ & Hloc & _)];
    [ destruct Hin | ].
  destruct Hin as [<-|[]].
  apply (locate_vmeAddress _ _ _ _ Hd) in Hloc. unfold vmeAddress in Hloc.
  destruct (constructed_tables _ Hd) as [(_ & Hm & Hc)|(_ & Hm & Hc)].
  2: { rewrite Hm, Hc, !lookup_empty in Hloc. discriminate. }
  destruct (_modcmds (this s) !! call_function c) as [off|] eqn:Em.
  - injection Hloc as <-. pose proof (constructed_modcmds _ _ _ Hd Em) as R.
    rewrite Hm in Em. apply insert_all_lookup in Em. destruct Em as (p & Hp & _).
    split; [ lia | apply (offsets_aligned p off); auto ].
  - destruct (_chancmds (this s) !! call_function c) as [off|] eqn:Ec; [ | discriminate ].
    destruct (chanAddr_at (call_addr s c)) as [ch|] eqn:Ea; [ | discriminate ].
    injection Hloc as <-. pose proof (constructed_chancmds _ _ _ Hd Ec) as R.
    rewrite Hc in Ec. apply insert_all_lookup in Ec. destruct Ec as (p & Hp & _).
    pose proof (offsets_aligned p off (or_intror Hp)) as Hal.
    apply chanAddr_at_value in Ea. destruct Ea as [Hr ->].
    split; [ lia | ].
    rewrite Z.add_mod by lia. rewrite Hal.
    replace (256 + 64 * call_addr s c) with ((64 + 16 * call_addr s c) * 4) by lia.
    rewrite Z.mod_mul by lia. reflexivity.
Qed.

(** X5.  A call makes its access exactly when the identifier is not one
    its entry point treats as read-only, [getAddress] succeeded and the
    lookup found an address; a call that makes no access leaves the user
    and the whole state as they were. *)
Theorem X5_when_a_call_accesses (c : call) (s s' : State) (status : asynStatus)
    (u' : asynUser) (performed : list VmeAccess) :
  exec c s = Some (status, u', s') ->
  accesses s' = accesses s ++ performed ->
  (performed <> [] <->
   readonly c s = false /\
   failed (getAddress (maxAddr (base (this s))) (call_user c) 0).1 = false /\
   exists vmeAddr, locate (this s) (call_function c) (call_addr s c) = At vmeAddr) /\
  (performed = [] -> u' = call_user c /\ s' = s).
Proof.
  intros Hexec Hacc. apply exec_ran in Hexec.
  destruct Hexec as [ Hro | st Hro Hst Hf | Hro Hf Hloc
                    | vme x a e s1 Hro Hf Hloc _ _ _ _ _ _ Hacc1 _
                    | vme x a st u ps s1 Hro Hf Hloc _ _ _ _ _ _ Hacc1 _ ].
  1-3: rewrite <- (app_nil_r (accesses s)) in Hacc at 1;
       apply app_inv_head in Hacc; subst performed;
       (split; [ split; [ intros H; destruct H; reflexivity | ] | auto ]).
  - intros (H & _). congruence.
  - intros (_ & H & _). subst st. congruence.
  - intros (_ & _ & y & H). congruence.
  - rewrite Hacc1 in Hacc. apply app_inv_head in Hacc. subst performed.
    split; [ split; [ eauto | discriminate ] | discriminate ].
  - rewrite Hacc1 in Hacc. apply app_inv_head in Hacc. subst performed.
    split; [ split; [ eauto | discriminate ] | discriminate ].
Qed.

(** A call on a driver without [VmeMaster]. *)
Lemma exec_without_vme (c : call) (s : State) :
  reachable s ->
  _vme (this s) = None ->
  exists status,
    exec c s = Some (status, call_user c, s) /\
    (is_read_call c = true -> failed status = true).
Proof.
  intros Hreach Hv. pose proof (reachable_constructed s Hreach) as Hd.
  destruct (exec c s) as [[[st u'] s']|] eqn:E.
  - apply exec_ran in E.
    destruct E as [ Hro | st Hro Hst Hf | Hro Hf Hloc
                  | vme x a e s1 _ _ _ Hvme | vme x a st u ps s1 _ _ _ Hvme ];
      try congruence.
    + exists asynSuccess. split; [ reflexivity | ].
      destruct c; simpl in Hro; try discriminate Hro; discriminate.
    + exists st. auto.
    + exists asynError. auto.
  - exfalso. destruct c as [u v m|u v m|u v|u v];
      unfold exec, readUInt32Digital, writeUInt32Digital, readFloat64, writeFloat64 in E;
      paths E;
      match goal with
      | H : locate (this s) ?f ?a = _ |- _ =>
          rewrite (locate_null _ f a Hd Hv) in H; discriminate H
      end.
Qed.

(** X6.  On a driver that found no [VmeMaster], every call returns with
    user and state as they were, never reaching the null pointer, and the
    read entry points never report success. *)
Theorem X6_without_vme_nothing_happens (c : call) (s : State) :
  reachable s ->
  _vme (this s) = None ->
  exists status,
    exec c s = Some (status, call_user c, s) /\
    (is_read_call c = true -> failed status = true).
Proof.
  intros Hreach Hv. destruct (exec_without_vme c s Hreach Hv) as (status & Hexec & Hread).
  exists status. split; assumption.
Qed.

(** X7.  Over any sequence of calls the log only grows, and by at most
    one access per call. *)
Theorem X7_one_access_per_call (cs : list call) (s s' : State) :
  run cs s = Some s' ->
  exists performed,
    accesses s' = accesses s ++ performed /\ (length performed <= length cs)%nat.
Proof.
  revert s. induction cs as [|c cs IH]; intros s; simpl.
  - intros [= <-]. exists []. rewrite app_nil_r. auto.
  - destruct (exec c s) as [[[st u] s1]|] eqn:E; [ | discriminate ].
    intros Hrun. destruct (IH _ Hrun) as (rest & Hrest & Hlen).
    destruct (exec_accesses _ _ _ _ _ E) as [Hsame|(a & Ha & _)].
    + exists rest. rewrite Hrest, Hsame. split; [ reflexivity | lia ].
    + exists (a :: rest). rewrite Hrest, Ha, <- app_assoc. split; [ reflexivity | simpl; lia ].
Qed.

(** ** Beyond the claims: what a call hands on and reports *)

(** X8.  [writeUInt32Digital] writes [value] as it is, whatever the mask;
    the mask only enters the parameter library, which is updated, and its
    callbacks called for [addr], once the write went through. *)
Theorem X8_write_ignores_mask (pasynUser : asynUser) (value mask : Z) (s s' : State)
    (status : asynStatus) (u' : asynUser) (a : VmeAccess) :
  writeUInt32Digital pasynUser value mask s = Returned status u' tt s' ->
  accesses s' = accesses s ++ [a] ->
  (exists vme vmeAddr, a = WriteA16D32 vme (_base (this s)) vmeAddr value) /\
  (thrown (bus s) a = None ->
   let addr := (getAddress (maxAddr (base (this s))) pasynUser 0).2 in
   let set := setUIntDigitalParam addr (reason pasynUser) value mask (params (base (this s))) in
   callParamCallbacks addr addr set.2 = (status, params (base (this s')))).
Proof.
  intros H Hacc. unfold writeUInt32Digital in H.
  paths H; injection H as <- <- <-; simpl in Hacc.
  1-3: no_access Hacc.
  all: revert Hacc; match goal with E : accesses _ = _ |- _ => rewrite E end;
       intros Hacc; apply app_inv_head in Hacc; injection Hacc as <-.
  all: (split; [ eauto | ]).
  - simpl. match goal with E : writeRegisterA16D32 _ _ _ _ _ = _ |- _ => rewrite E end.
    discriminate.
  - intros _. cbv zeta. simpl.
    repeat match goal with
           | E : this _ = this _ |- _ => rewrite E in *
           | E : getAddress _ _ _ = _ |- _ => rewrite E
           end.
    simpl.
    repeat match goal with
           | E : setUIntDigitalParam _ _ _ _ _ = _ |- _ => rewrite E
           end.
    simpl. assumption.
  - intros _. cbv zeta. simpl.
    repeat match goal with
           | E : this _ = this _ |- _ => rewrite E in *
           | E : getAddress _ _ _ = _ |- _ => rewrite E
           end.
    simpl.
    repeat match goal with
           | E : setUIntDigitalParam _ _ _ _ _ = _ |- _ => rewrite E
           end.
    simpl. assumption.
Qed.

(** X9.  A call never changes [reason] or the address of its user; it
    leaves [errorMessage] alone when it returns [asynSuccess]; the write
    entry points never touch [timestamp], and a read entry point that
    returns [asynSuccess] has set it to the time stamp of the port. *)
Theorem X9_what_a_call_leaves_in_the_user (c : call) (s s' : State)
    (status : asynStatus) (u' : asynUser) :
  exec c s = Some (status, u', s') ->
  reason u' = reason (call_user c) /\
  device_addr u' = device_addr (call_user c) /\
  (status = asynSuccess -> errorMessage u' = errorMessage (call_user c)) /\
  (is_read_call c = false -> timestamp u' = timestamp (call_user c)) /\
  (is_read_call c = true -> status = asynSuccess -> timestamp u' = portTimeStamp s).
Proof.
  intros H. destruct c as [u v m|u v m|u v|u v];
    unfold exec, readUInt32Digital, writeUInt32Digital, readFloat64, writeFloat64 in H;
    paths H; injection H as <- <- <-; simpl;
    repeat split; try reflexivity; try discriminate;
    try (intros; subst; discriminate);
    try (intros; unfold getTimeStamp; congruence).
Qed.

(** X10.  When the access went through, the status a call returns is
    that of its last call into the parameter library alone: the get
    after the set for the read entry points, [callParamCallbacks] after
    the set for the write entry points.  The status of the set itself is
    overwritten and reported nowhere.  When the status returned is a
    failure, [readUInt32Digital], [writeUInt32Digital] and [readFloat64]
    put it into [errorMessage] and print nothing; [writeFloat64] leaves
    [errorMessage] as it was and prints with [ASYN_TRACE_ERROR]
    instead. *)
Theorem X10_parameter_failure_report (c : call) (s s' : State)
    (status : asynStatus) (u' : asynUser) (a : VmeAccess) :
  exec c s = Some (status, u', s') ->
  accesses s' = accesses s ++ [a] ->
  thrown (bus s) a = None ->
  let addr := call_addr s c in
  let function := call_function c in
  let ps := params (base (this s)) in
  match c with
  | CallReadUInt32Digital _ value mask =>
      (exists vme vmeAddr vmeData,
         a = ReadA16D32 vme (_base (this s)) vmeAddr /\
         (readRegisterA16D32 vme (_base (this s)) vmeAddr (bus s)).1 = inr vmeData /\
         status = (getUIntDigitalParam addr function value mask
                     (setUIntDigitalParam addr function vmeData mask ps).2).1) /\
      (failed status = true ->
       In (ArgStatus status) (args (errorMessage u')) /\ trace s' = trace s)
  | CallWriteUInt32Digital _ value mask =>
      status = (callParamCallbacks addr addr
                  (setUIntDigitalParam addr function value mask ps).2).1 /\
      (failed status = true ->
       In (ArgStatus status) (args (errorMessage u')) /\ trace s' = trace s)
  | CallReadFloat64 _ value =>
      (exists vme vmeAddr vmeData,
         a = ReadA16D32 vme (_base (this s)) vmeAddr /\
         (readRegisterA16D32 vme (_base (this s)) vmeAddr (bus s)).1 = inr vmeData /\
         let data := stored_ival vmeData in
         let data :=
           if (function =? idx (this s) P_ChanImom) || (function =? idx (this s) P_ChanIset)
           then fval_mul_assign data float64_1e6 else data in
         status = (getDoubleParam addr function value
                     (setDoubleParam addr function (float64_of_float32 (fval data)) ps).2).1) /\
      (failed status = true ->
       In (ArgStatus status) (args (errorMessage u')) /\ trace s' = trace s)
  | CallWriteFloat64 _ value =>
      status = (callParamCallbacks addr addr
                  (setDoubleParam addr function value ps).2).1 /\
      (failed status = true ->
       errorMessage u' = errorMessage (call_user c) /\
       exists m,
         trace s' = trace s ++ [(ASYN_TRACE_ERROR, m)] /\ In (ArgStatus status) (args m))
  end.
Proof.
  intros H Hacc Hthrown. cbv zeta. destruct c as [u v m|u v m|u v|u v];
    unfold exec, readUInt32Digital, writeUInt32Digital, readFloat64, writeFloat64 in H;
    paths H; injection H as <- <- <-; simpl in Hacc |- *;
    try (no_access Hacc);
    revert Hacc; match goal with E : accesses _ = _ |- _ => rewrite E end;
    intros Hacc; apply app_inv_head in Hacc; injection Hacc as <-;
    simpl in Hthrown;
    try (match goal with
         | E : readRegisterA16D32 _ _ _ _ = _ |- _ => rewrite E in Hthrown
         | E : writeRegisterA16D32 _ _ _ _ _ = _ |- _ => rewrite E in Hthrown
         end; discriminate Hthrown).
  all: unfold call_addr, call_function; simpl;
    repeat match goal with
           | E : this _ = this _ |- _ => rewrite E in *
           end;
    repeat match goal with
           | E : getAddress _ _ _ = _ |- _ => rewrite E
           end; simpl.
  all: split;
    [ try (do 3 eexists; split; [ reflexivity | split;
             [ match goal with
               | E : readRegisterA16D32 _ _ _ _ = _ |- _ => rewrite E
               end; reflexivity | ] ]);
      cbv zeta;
      repeat match goal with E : _ = (_, _) |- _ => rewrite E; simpl end;
      reflexivity
    | intros Hfailed; try congruence ].
  all: try (split; [ simpl; tauto | assumption ]).
  split; [ reflexivity | ].
  eexists. split; [ match goal with E : trace _ = _ |- _ => rewrite E end; reflexivity
                  | simpl; tauto ].
Qed.

(** ** Beyond the claims: a write followed by a read *)

(** What a successful [writeUInt32Digital] for a member that is not
    read-only did. *)
Lemma writeUInt32Digital_success (u u1 : asynUser) (value mask : Z) (s s1 : State) :
  writeUInt32Digital u value mask s = Returned asynSuccess u1 tt s1 ->
  readonly_uint32 (this s) (reason u) = false ->
  exists vme vmeAddr ps,
    _vme (this s) = Some vme /\
    (getAddress (maxAddr (base (this s))) u 0).1 = asynSuccess /\
    locate (this s) (reason u) (getAddress (maxAddr (base (this s))) u 0).2 = At vmeAddr /\
    writeRegisterA16D32 vme (_base (this s)) vmeAddr value (bus s) = (None, bus s1) /\
    this s1 = driver_with_params (this s) ps.
Proof.
  intros H Hro. unfold writeUInt32Digital in H. rewrite Hro in H.
  paths H; injection H as H <- <-; subst; try discriminate.
  match goal with
  | Ev : _vme _ = Some ?vme, Ew : writeRegisterA16D32 ?vme _ ?x _ _ = _,
    Et : this _ = this _, Ec : callParamCallbacks _ _ _ = (_, ?ps),
    Ef : failed ?st = false |- _ =>
      exists vme, x, ps; simpl; rewrite Et;
      repeat split; try assumption; try reflexivity;
      destruct st; try discriminate Ef; reflexivity
  end.
Qed.

(** What a successful [readUInt32Digital] did. *)
Lemma readUInt32Digital_success (u u' : asynUser) (value mask value' : Z) (s s' : State) :
  readUInt32Digital u value mask s = Returned asynSuccess u' value' s' ->
  exists vme vmeAddr vmeData,
    _vme (this s) = Some vme /\
    locate (this s) (reason u) (getAddress (maxAddr (base (this s))) u 0).2 = At vmeAddr /\
    (readRegisterA16D32 vme (_base (this s)) vmeAddr (bus s)).1 = inr vmeData /\
    let addr := (getAddress (maxAddr (base (this s))) u 0).2 in
    getUIntDigitalParam addr (reason u) value mask
      (setUIntDigitalParam addr (reason u) vmeData mask (params (base (this s)))).2
    = (asynSuccess, value').
Proof.
  intros H. unfold readUInt32Digital in H.
  paths H; injection H as H <- <- <-; subst; try discriminate.
  match goal with
  | Ev : _vme _ = Some ?vme, Er : readRegisterA16D32 ?vme _ ?x _ = (inr ?d, _),
    Ea : getAddress _ _ _ = _, Et : this _ = this _,
    Es : setUIntDigitalParam _ _ _ _ _ = _, Eg : getUIntDigitalParam _ _ _ _ _ = _ |- _ =>
      exists vme, x, d; rewrite Er; cbv zeta; simpl;
      rewrite Et in Es; rewrite Es; simpl; simpl in Eg;
      repeat split; assumption
  end.
Qed.

(** What a successful [writeFloat64] for a member that is not read-only
    did. *)
Lemma writeFloat64_success (u u1 : asynUser) (value : epicsFloat64) (s s1 : State) :
  writeFloat64 u value s = Returned asynSuccess u1 tt s1 ->
  readonly_float64 (this s) (reason u) = false ->
  exists vme vmeAddr ps,
    _vme (this s) = Some vme /\
    locate (this s) (reason u) (getAddress (maxAddr (base (this s))) u 0).2 = At vmeAddr /\
    writeRegisterA16D32 vme (_base (this s)) vmeAddr
      (bits_of_float32
         (if reason u =? idx (this s) P_ChanIset
          then float32_of_float64
                 (float64_mul (float64_of_float32 (float32_of_float64 value)) float64_1em6)
          else float32_of_float64 value))
      (bus s)
    = (None, bus s1) /\
    this s1 = driver_with_params (this s) ps.
Proof.
  intros H Hro. unfold writeFloat64 in H. rewrite Hro in H.
  paths H; injection H as H <- <-; subst; try discriminate.
  match goal with
  | Ev : _vme _ = Some ?vme, Ew : writeRegisterA16D32 ?vme _ ?x _ _ = _,
    Et : this _ = this _, Ec : callParamCallbacks _ _ _ = (_, ?ps) |- _ =>
      exists vme, x, ps; simpl; rewrite Et;
      repeat split; try assumption; try reflexivity;
      revert Ew; destruct (reason u =? idx (this s) P_ChanIset); simpl; intros Ew; exact Ew
  end.
Qed.

(** What a successful [readFloat64] did. *)
Lemma readFloat64_success (u u' : asynUser) (value value' : epicsFloat64) (s s' : State) :
  readFloat64 u value s = Returned asynSuccess u' value' s' ->
  exists vme vmeAddr vmeData,
    _vme (this s) = Some vme /\
    locate (this s) (reason u) (getAddress (maxAddr (base (this s))) u 0).2 = At vmeAddr /\
    (readRegisterA16D32 vme (_base (this s)) vmeAddr (bus s)).1 = inr vmeData /\
    let addr := (getAddress (maxAddr (base (this s))) u 0).2 in
    let x :=
      if (reason u =? idx (this s) P_ChanImom) || (reason u =? idx (this s) P_ChanIset)
      then float32_of_float64
             (float64_mul (float64_of_float32 (float32_of_bits vmeData)) float64_1e6)
      else float32_of_bits vmeData in
    getDoubleParam addr (reason u) value
      (setDoubleParam addr (reason u) (float64_of_float32 x) (params (base (this s)))).2
    = (asynSuccess, value').
Proof.
  intros H. unfold readFloat64 in H.
  paths H; injection H as H <- <- <-; subst; try discriminate.
  match goal with
  | Ev : _vme _ = Some ?vme, Er : readRegisterA16D32 ?vme _ ?x _ = (inr ?d, _),
    Et : this _ = this _,
    Es : setDoubleParam _ _ _ _ = _, Eg : getDoubleParam _ _ _ _ = _ |- _ =>
      exists vme, x, d; rewrite Er; cbv zeta; simpl;
      rewrite Et in Es; simpl in Eg;
      repeat split; try assumption;
      revert Es;
      destruct ((reason u =? idx (this s) P_ChanImom) || (reason u =? idx (this s) P_ChanIset));
      simpl; intros Es; rewrite Es; simpl; assumption
  end.
Qed.

Section WriteThenRead.
(** A register that holds what was written to it, and a parameter
    library that answers a get right after a set with the value set. *)
Hypothesis register_holds :
  forall vme ba x v b,
    (writeRegisterA16D32 vme ba x v b).1 = None ->
    (readRegisterA16D32 vme ba x (writeRegisterA16D32 vme ba x v b).2).1 = inr v.
Hypothesis uint32_param_holds :
  forall l i v m old ps,
    (getUIntDigitalParam l i old m (setUIntDigitalParam l i v m ps).2).1 = asynSuccess ->
    (getUIntDigitalParam l i old m (setUIntDigitalParam l i v m ps).2).2 = Z.land v m.

(** X11.  After a successful [writeUInt32Digital] of [value] to a member
    that is not read-only, a successful [readUInt32Digital] by the same
    user delivers [value] under the mask of the read: both go to the same
    register. *)
Theorem X11_write_then_read (u u1 u2 : asynUser) (value mask value0 mask' value' : Z)
    (s s1 s2 : State) :
  writeUInt32Digital u value mask s = Returned asynSuccess u1 tt s1 ->
  readonly_uint32 (this s) (reason u) = false ->
  readUInt32Digital u value0 mask' s1 = Returned asynSuccess u2 value' s2 ->
  value' = Z.land value mask'.
Proof.
  intros Hw Hro Hr.
  destruct (writeUInt32Digital_success _ _ _ _ _ _ Hw Hro)
    as (vme & x & ps & Hv & _ & Hloc & Hbus & Hthis).
  destruct (readUInt32Digital_success _ _ _ _ _ _ _ Hr)
    as (vme' & x' & d & Hv' & Hloc' & Hread & Hget).
  rewrite Hthis in Hv', Hloc', Hread.
  change (_vme (driver_with_params (this s) ps)) with (_vme (this s)) in Hv'.
  change (_base (driver_with_params (this s) ps)) with (_base (this s)) in Hread.
  change (maxAddr (base (driver_with_params (this s) ps)))
    with (maxAddr (base (this s))) in Hloc'.
  change (locate (driver_with_params (this s) ps)) with (locate (this s)) in Hloc'.
  rewrite Hv in Hv'. injection Hv' as <-.
  rewrite Hloc in Hloc'. injection Hloc' as <-.
  pose proof (register_holds vme (_base (this s)) x value (bus s)) as Hreg.
  rewrite Hbus in Hreg. simpl in Hreg. rewrite (Hreg eq_refl) in Hread.
  injection Hread as <-.
  cbv zeta in Hget.
  match type of Hget with
  | getUIntDigitalParam ?l ?i ?old ?m (setUIntDigitalParam _ _ ?v _ ?p).2 = _ =>
      pose proof (uint32_param_holds l i v m old p) as Hlaw
  end.
  rewrite Hget in Hlaw. simpl in Hlaw. apply Hlaw. reflexivity.
Qed.
Hypothesis double_param_holds :
  forall l i x old ps,
    (getDoubleParam l i old (setDoubleParam l i x ps).2).1 = asynSuccess ->
    (getDoubleParam l i old (setDoubleParam l i x ps).2).2 = x.

(** X15.  After a successful [writeFloat64] of [value] to a member that
    is not read-only, a successful [readFloat64] by the same user
    delivers [value] narrowed to single precision, sent through the
    register bits and widened again, and for [P_ChanIset] multiplied by
    1e-6 before and by 1e6 after the register: not [value] itself. *)
Theorem X15_write_then_read_float (u u1 u2 : asynUser) (value value0 value' : epicsFloat64)
    (s s1 s2 : State) :
  writeFloat64 u value s = Returned asynSuccess u1 tt s1 ->
  readonly_float64 (this s) (reason u) = false ->
  readFloat64 u value0 s1 = Returned asynSuccess u2 value' s2 ->
  let written :=
    bits_of_float32
      (if reason u =? idx (this s) P_ChanIset
       then float32_of_float64
              (float64_mul (float64_of_float32 (float32_of_float64 value)) float64_1em6)
       else float32_of_float64 value) in
  value' =
    float64_of_float32
      (if (reason u =? idx (this s) P_ChanImom) || (reason u =? idx (this s) P_ChanIset)
       then float32_of_float64
              (float64_mul (float64_of_float32 (float32_of_bits written)) float64_1e6)
       else float32_of_bits written).
Proof.
  intros Hw Hro Hr.
  destruct (writeFloat64_success _ _ _ _ _ Hw Hro)
    as (vme & x & ps & Hv & Hloc & Hbus & Hthis).
  destruct (readFloat64_success _ _ _ _ _ _ Hr)
    as (vme' & x' & d & Hv' & Hloc' & Hread & Hget).
  rewrite Hthis in Hv', Hloc', Hread, Hget.
  change (_vme (driver_with_params (this s) ps)) with (_vme (this s)) in Hv'.
  change (_base (driver_with_params (this s) ps)) with (_base (this s)) in Hread.
  change (maxAddr (base (driver_with_params (this s) ps)))
    with (maxAddr (base (this s))) in Hloc', Hget.
  change (locate (driver_with_params (this s) ps)) with (locate (this s)) in Hloc'.
  change (idx (driver_with_params (this s) ps)) with (idx (this s)) in Hget.
  rewrite Hv in Hv'. injection Hv' as <-.
  rewrite Hloc in Hloc'. injection Hloc' as <-.
  match type of Hbus with
  | writeRegisterA16D32 _ _ _ ?v _ = _ =>
      pose proof (register_holds vme (_base (this s)) x v (bus s)) as Hreg
  end.
  rewrite Hbus in Hreg. simpl in Hreg. rewrite (Hreg eq_refl) in Hread.
  injection Hread as <-.
  cbv zeta in Hget |- *.
  match type of Hget with
  | getDoubleParam ?l ?i ?old (setDoubleParam _ _ ?v ?p).2 = _ =>
      pose proof (double_param_holds l i v old p) as Hlaw
  end.
  rewrite Hget in Hlaw. simpl in Hlaw. apply Hlaw. reflexivity.
Qed.
End WriteThenRead.

(** X16.  A call for a module identifier stays within 0..0x4c, whatever
    the channel address of its user; a call for a channel identifier
    stays within the first 0x28 bytes of the block of its own channel,
    which starts at 0x100 + 0x40 * addr. *)
Theorem X16_channel_isolation (c : call) (s s' : State) (status : asynStatus)
    (u' : asynUser) (performed : list VmeAccess) (a : VmeAccess) :
  reachable s ->
  exec c s = Some (status, u', s') ->
  accesses s' = accesses s ++ performed ->
  In a performed ->
  (is_Some (_modcmds (this s) !! call_function c) -> 0 <= access_addr a <= 0x4c) /\
  (_modcmds (this s) !! call_function c = None ->
   0 <= call_addr s c < 8 /\
   0x100 + 0x40 * call_addr s c <= access_addr a <= 0x100 + 0x40 * call_addr s c + 0x24).
Proof.
  intros Hreach Hexec Hacc Hin. pose proof (reachable_constructed s Hreach) as Hd.
  destruct (exec_performed _ _ _ _ _ _ Hexec Hacc) as [->|(b & -> & _ & _ & Hloc & _)];
    [ destruct Hin | ].
  destruct Hin as [<-|[]].
  apply (locate_vmeAddress _ _ _ _ Hd) in Hloc. unfold vmeAddress in Hloc.
  destruct (_modcmds (this s) !! call_function c) as [off|] eqn:Em.
  - injection Hloc as <-. split; [ | discriminate ].
    intros _. apply (constructed_modcmds _ _ _ Hd Em).
  - split; [ intros [x Hx]; discriminate Hx | intros _ ].
    destruct (_chancmds (this s) !! call_function c) as [off|] eqn:Ec; [ | discriminate ].
    destruct (chanAddr_at (call_addr s c)) as [ch|] eqn:Ea; [ | discriminate ].
    injection Hloc as <-. pose proof (constructed_chancmds _ _ _ Hd Ec) as R.
    apply chanAddr_at_value in Ea. destruct Ea as [Hr ->]. lia.
Qed.

(** Calls on a driver without [VmeMaster], in sequence. *)
Lemma run_without_vme (cs : list call) (s : State) :
  reachable s -> _vme (this s) = None -> run cs s = Some s.
Proof.
  intros Hreach Hv. induction cs as [|c cs IH]; simpl.
  - reflexivity.
  - destruct (exec_without_vme c s Hreach Hv) as (status & -> & _). exact IH.
Qed.
End Run.

(** ** Beyond the claims: configuration from the IOC shell *)

Section Shell.
Context `{FO : FloatOps} `{VL : VmeMasterLib} `{AL : !AsynPortDriverLib} `{HD : Header}.

Lemma register_again (w : Ioc) :
  firstTime w = 0 -> drvAsynIsegVdsDrvRegister w = w.
Proof. intros H. unfold drvAsynIsegVdsDrvRegister. rewrite H. reflexivity. Qed.

(** X12.  However often the registrar runs, the command is registered
    once: after one call or more, the commands are those there before
    followed by [drvAsynIsegVdsConfigure], [firstTime] is 0 and no port
    was created. *)
Theorem X12_registered_once (n : nat) (inst : option VmeMaster) (mem : member -> Z)
    (cmds : list iocshFuncDef) :
  commands (Nat.iter (S n) drvAsynIsegVdsDrvRegister (ioc_start inst mem cmds))
  = cmds ++ [initIsegVdsFuncDef] /\
  firstTime (Nat.iter (S n) drvAsynIsegVdsDrvRegister (ioc_start inst mem cmds)) = 0 /\
  ports (Nat.iter (S n) drvAsynIsegVdsDrvRegister (ioc_start inst mem cmds)) = [].
Proof.
  induction n as [|n IH].
  - simpl. unfold drvAsynIsegVdsDrvRegister, ioc_start. simpl. auto.
  - change (Nat.iter (S (S n)) drvAsynIsegVdsDrvRegister (ioc_start inst mem cmds))
      with (drvAsynIsegVdsDrvRegister
              (Nat.iter (S n) drvAsynIsegVdsDrvRegister (ioc_start inst mem cmds))).
    destruct IH as (Hc & Hf & Hp). rewrite (register_again _ Hf). auto.
Qed.

(** X13.  The command declares as many arguments as its argument table
    has, and on any buffers that hold what the table declares, a string
    and then an integer, the call function finds both members it reads
    and configures a port with them. *)
Theorem X13_call_reads_what_is_declared (args : list iocshArgBuf) (w : Ioc) :
  Forall2 (fun a b => holds (arg_type a) b = true) (arg initIsegVdsFuncDef) args ->
  nargs initIsegVdsFuncDef = Z.of_nat (length args) /\
  exists name BA,
    args = [stored_buf_sval name; stored_buf_ival BA] /\
    initIsegVdsCallFunc args w = Some (drvAsynIsegVdsConfigure name BA w).2.
Proof.
  unfold initIsegVdsFuncDef, initIsegVdsArgs. cbn [arg nargs].
  intros H. inversion H as [|a0 b0 l0 l0' H0 Hrest]; subst.
  inversion Hrest as [|a1 b1 l1 l1' H1 Hnil]; subst.
  inversion Hnil; subst.
  destruct b0 as [i0|name]; [ discriminate H0 | ].
  destruct b1 as [BA|s1]; [ | discriminate H1 ].
  split; [ reflexivity | ]. exists name, BA. split; reflexivity.
Qed.

(** X14.  [drvAsynIsegVdsConfigure] reports [asynSuccess] also when no
    [VmeMaster] is found; the port it then leaves, with base address
    [BA], answers any sequence of calls without a single bus access and
    without any change of its state. *)
Theorem X14_configure_without_vme (name : string) (BA : Z) (w : Ioc) :
  vmeInstance w = None ->
  (drvAsynIsegVdsConfigure name BA w).1 = asynSuccess /\
  exists d,
    ports (drvAsynIsegVdsConfigure name BA w).2 = ports w ++ [d] /\
    _base d = BA /\
    forall b t0 cs, run cs (port_state d b t0) = Some (port_state d b t0).
Proof.
  intros Hv. split; [ reflexivity | ].
  exists (drvAsynIsegVds_new name BA None (fresh_memory w)).
  unfold drvAsynIsegVdsConfigure. cbn [snd ports]. rewrite Hv.
  split; [ reflexivity | split; [ reflexivity | ] ].
  intros b t0 cs.
  apply (run_without_vme cs (initial name BA None (fresh_memory w) b t0)).
  - apply reachable_initial.
  - reflexivity.
Qed.
End Shell.

(** ** The bench keeps the promises the claims rest on *)

Lemma land_lor_mask (o v m : Z) :
  Z.land (Z.lor (Z.land o (Z.lnot m)) (Z.land v m)) m = Z.land v m.
Proof.
  apply Z.bits_inj'. intros n Hn.
  rewrite !Z.land_spec, Z.lor_spec, !Z.land_spec, Z.lnot_spec by assumption.
  destruct (Z.testbit o n), (Z.testbit v n), (Z.testbit m n); reflexivity.
Qed.


Lemma bench_address_range (n : Z) (u : asynUser) (address a : Z) :
  Bench.address_of n u address = (asynSuccess, a) -> 0 <= a < n.
Proof.
  unfold Bench.address_of.
  destruct ((_ <? 0) || (n <=? _)) eqn:E; [ discriminate | ].
  intros [= <-]. apply orb_false_iff in E. destruct E as [E1 E2].
  apply Z.ltb_ge in E1. apply Z.leb_gt in E2. lia.
Qed.

Lemma bench_uint32_get_set (l i v m old : Z) (t : Bench.table) :
  (Bench.get_uint l i old m (Bench.set_uint l i v m t).2).1 = asynSuccess ->
  (Bench.get_uint l i old m (Bench.set_uint l i v m t).2).2 = Z.land v m.
Proof.
  unfold Bench.set_uint.
  destruct (Bench.check t l i asynParamUInt32Digital) eqn:E;
    try (unfold Bench.get_uint; simpl; rewrite E; simpl; discriminate).
  unfold Bench.get_uint, Bench.check in *. simpl in *. rewrite E. simpl.
  rewrite lookup_insert_eq. simpl. intros _. apply land_lor_mask.
Qed.

Lemma bench_double_get_set (l i : Z) (x old : spec_float) (t : Bench.table) :
  (Bench.get_double l i old (Bench.set_double l i x t).2).1 = asynSuccess ->
  (Bench.get_double l i old (Bench.set_double l i x t).2).2 = x.
Proof.
  unfold Bench.set_double.
  destruct (Bench.check t l i asynParamFloat64) eqn:E;
    try (unfold Bench.get_double; simpl; rewrite E; simpl; discriminate).
  unfold Bench.get_double, Bench.check in *. simpl in *. rewrite E. simpl.
  rewrite lookup_insert_eq. simpl. reflexivity.
Qed.

(** ** The driver on the bench *)

#[local] Existing Instances Bench.ieee754 Bench.crate Bench.port Bench.header.

(** A call that returns leaves what [Bench.status_after], [Bench.user_after]
    and [Bench.after] name. *)
Lemma bench_exec_after (c : call) (s : State) :
  Bench.returns c s = true ->
  exec c s = Some (Bench.status_after c s, Bench.user_after c s, Bench.after c s).
Proof.
  unfold Bench.returns, Bench.status_after, Bench.user_after, Bench.after.
  destruct (exec c s) as [[[status u] s']|]; [ reflexivity | discriminate ].
Qed.

Lemma bench_run_after (cs : list call) (s : State) :
  Bench.all_return cs s = true ->
  run cs s = Some (Bench.after_all cs s).
Proof.
  unfold Bench.all_return, Bench.after_all. destruct (run cs s); [ reflexivity | discriminate ].
Qed.

Lemma bench_readFloat64_after (u : asynUser) (value : spec_float) (s : State) :
  Bench.returns (CallReadFloat64 u value) s = true ->
  readFloat64 u value s
  = Returned (Bench.status_after (CallReadFloat64 u value) s)
      (Bench.user_after (CallReadFloat64 u value) s)
      (Bench.value_after u value s)
      (Bench.after (CallReadFloat64 u value) s).
Proof.
  unfold Bench.returns, Bench.status_after, Bench.user_after, Bench.after,
    Bench.value_after, exec.
  destruct (readFloat64 u value s); [ reflexivity | discriminate ].
Qed.

Lemma bench_writeFloat64_after (u : asynUser) (value : spec_float) (s : State) :
  Bench.returns (CallWriteFloat64 u value) s = true ->
  writeFloat64 u value s
  = Returned (Bench.status_after (CallWriteFloat64 u value) s)
      (Bench.user_after (CallWriteFloat64 u value) s)
      tt
      (Bench.after (CallWriteFloat64 u value) s).
Proof.
  unfold Bench.returns, Bench.status_after, Bench.user_after, Bench.after, exec.
  destruct (writeFloat64 u value s) as [status u' [] s'|]; [ reflexivity | discriminate ].
Qed.

Example bench_tables :
  map (idx (this Bench.s0)) [P_ModStatus; P_Temperature; P_ChanStatus; P_ChanIBounds]
  = [0; 15; 16; 25] /\
  _modcmds (this Bench.s0) !! 10 = Some 0x28 /\
  _chancmds (this Bench.s0) !! 21 = Some 0x14 /\
  size (_modcmds (this Bench.s0)) = 16%nat /\
  size (_chancmds (this Bench.s0)) = 10%nat.
Proof. vm_compute. repeat split; reflexivity. Qed.

(** Channel 3 sits at 0x1c0, its event status at 0x1c0 + 4. *)
Example bench_read_evt3 :
  Bench.status_after Bench.read_evt3 Bench.s0 = asynSuccess /\
  accesses (Bench.after Bench.read_evt3 Bench.s0) = [ReadA16D32 1%nat 0x4000 0x1c4].
Proof. vm_compute. split; reflexivity. Qed.

(** 1.0f in the set-current register reads as 1.0e6; writing 1.0e6
    stores 1.0f. *)
Example bench_read_iset2 :
  Bench.value_after (Bench.user 21 2) S754_nan Bench.s_one = Bench.million.
Proof. vm_compute. reflexivity. Qed.

Example bench_write_iset2 :
  accesses (Bench.after Bench.write_iset2 Bench.s0)
  = [WriteA16D32 1%nat 0x4000 0x194 Bench.one_f].
Proof. vm_compute. reflexivity. Qed.

(** A channel address past the last one is refused before any lookup. *)
Example bench_read_channel8 :
  exec (CallReadUInt32Digital (Bench.user 17 8) 0 0xff) Bench.s0
  = Some (asynError, Bench.user 17 8, Bench.s0).
Proof. reflexivity. Qed.

(** Without a [VmeMaster] nothing is in the tables, every read fails, and
    a write whose identifier happens to equal what is in the unset member
    [P_ModStatus] still reports success. *)
Example bench_null_driver :
  exec Bench.read_evt3 Bench.s_null = Some (asynError, Bench.user 17 3, Bench.s_null) /\
  exec (CallWriteUInt32Digital (Bench.user (-1) 0) 1 1) Bench.s_null
  = Some (asynSuccess, Bench.user (-1) 0, Bench.s_null).
Proof. split; reflexivity. Qed.

(** ** The claims on the bench *)


Lemma C2_witness :
  exists vme vmeAddr vmeData,
    _vme (this Bench.s_one) = Some vme /\
    accesses (Bench.after Bench.read_iset2 Bench.s_one)
    = accesses Bench.s_one ++ [ReadA16D32 vme (_base (this Bench.s_one)) vmeAddr] /\
    (readRegisterA16D32 vme (_base (this Bench.s_one)) vmeAddr (bus Bench.s_one)).1
    = inr vmeData /\
    let function := reason (Bench.user 21 2) in
    let x := float32_of_bits vmeData in
    let x :=
      if (function =? idx (this Bench.s_one) P_ChanImom)
         || (function =? idx (this Bench.s_one) P_ChanIset)
      then float32_of_float64 (float64_mul (float64_of_float32 x) float64_1e6)
      else x in
    Bench.value_after (Bench.user 21 2) S754_nan Bench.s_one = float64_of_float32 x.
Proof.
  apply (proj2 (@C2_reads_are_fresh Bench.ieee754 Bench.crate Bench.port
                  bench_uint32_get_set bench_double_get_set)
           (Bench.user 21 2) S754_nan Bench.s_one
           (Bench.user_after Bench.read_iset2 Bench.s_one)).
  replace asynSuccess with (Bench.status_after Bench.read_iset2 Bench.s_one)
    by (vm_compute; reflexivity).
  apply bench_readFloat64_after. vm_compute. reflexivity.
Defined.

Lemma C3_witness :
  exists performed,
    accesses (Bench.after Bench.read_evt3 Bench.s_dead) = accesses Bench.s_dead ++ performed /\
    (length performed <= 1)%nat /\
    forall a e, In a performed -> thrown (bus Bench.s_dead) a = Some e ->
      Bench.status_after Bench.read_evt3 Bench.s_dead = asynError /\
      performed = [a] /\
      this (Bench.after Bench.read_evt3 Bench.s_dead) = this Bench.s_dead.
Proof.
  apply (C3_single_attempt Bench.read_evt3 Bench.s_dead
           (Bench.after Bench.read_evt3 Bench.s_dead)
           (Bench.status_after Bench.read_evt3 Bench.s_dead)
           (Bench.user_after Bench.read_evt3 Bench.s_dead)).
  apply bench_exec_after. vm_compute. reflexivity.
Defined.



Lemma C5_witness :
  writeUInt32Digital (Bench.user 16 3) 1 0xff Bench.s0
  = Returned asynSuccess (Bench.user 16 3) tt Bench.s0 /\
  writeFloat64 (Bench.user 23 2) Bench.million Bench.s0
  = Returned asynSuccess (Bench.user 23 2) tt Bench.s0.
Proof.
  split.
  - apply (proj1 (C5_readonly_writes Bench.s0 (Bench.user 16 3)) 1 0xff P_ChanStatus).
    + simpl. auto.
    + vm_compute. reflexivity.
  - apply (proj2 (C5_readonly_writes Bench.s0 (Bench.user 23 2)) Bench.million P_ChanImom).
    + simpl. auto 10.
    + vm_compute. reflexivity.
Defined.

Lemma C6_witness :
  accesses (Bench.after Bench.write_ctrl3 Bench.s0)
  = [WriteA16D32 1%nat 0x4000 0x1cc 0x28] /\
  (exists performed,
     accesses (Bench.after Bench.write_ctrl3 Bench.s0) = accesses Bench.s0 ++ performed /\
     forall a, In a performed ->
       vmeAddress (_modcmds (this Bench.s0)) (_chancmds (this Bench.s0))
         (call_function Bench.write_ctrl3) (call_addr Bench.s0 Bench.write_ctrl3)
       = Some (access_addr a) /\
       (_modcmds (this Bench.s0) !! call_function Bench.write_ctrl3 = Some (access_addr a) \/
        _modcmds (this Bench.s0) !! call_function Bench.write_ctrl3 = None /\
        exists off ch,
          _chancmds (this Bench.s0) !! call_function Bench.write_ctrl3 = Some off /\
          0 <= call_addr Bench.s0 Bench.write_ctrl3 /\
          chanAddr !! Z.to_nat (call_addr Bench.s0 Bench.write_ctrl3) = Some ch /\
          access_addr a = ch + off) /\
       forall c2 s2 s2' status2 u2 a2,
         reachable s2 ->
         exec c2 s2 = Some (status2, u2, s2') ->
         accesses s2' = accesses s2 ++ [a2] ->
         _modcmds (this s2) = _modcmds (this Bench.s0) ->
         _chancmds (this s2) = _chancmds (this Bench.s0) ->
         call_function c2 = call_function Bench.write_ctrl3 ->
         call_addr s2 c2 = call_addr Bench.s0 Bench.write_ctrl3 ->
         access_addr a2 = access_addr a) /\
  ((size (_modcmds (this Bench.s0)) <= 16)%nat /\
   (size (_chancmds (this Bench.s0)) <= 10)%nat /\
   length chanAddr = 8%nat) /\
  (forall k,
     _modcmds (this Bench.s0) !! k
     = snd <$> find (fun mo => idx (this Bench.s0) mo.1 =? k) modOffsets /\
     _chancmds (this Bench.s0) !! k
     = snd <$> find (fun mo => idx (this Bench.s0) mo.1 =? k) chanOffsets).
Proof.
  assert (Hret : Bench.returns Bench.write_ctrl3 Bench.s0 = true)
    by (vm_compute; reflexivity).
  split; [ vm_compute; reflexivity | ].
  destruct (C6_three_static_tables Bench.write_ctrl3 Bench.s0
              (Bench.after Bench.write_ctrl3 Bench.s0)
              (Bench.status_after Bench.write_ctrl3 Bench.s0)
              (Bench.user_after Bench.write_ctrl3 Bench.s0)
              (reachable_initial _ _ _ _ _ _)
              (bench_exec_after _ _ Hret))
    as (Hacc & Hsize & Hpop).
  split; [ exact Hacc | ]. split; [ exact Hsize | ].
  apply Hpop. exact (@Some_ne_None _ _).
Defined.

(** The two maps alone do not determine the address: the control
    register of channel 3 is written at 0x1cc, while the two
    maps hold for the identifier nothing but the offset 0x0c, and hold
    0x1cc under no key.  The rest, 0x1c0, is the entry of the array
    [chanAddr] for the channel; for channel 2 the same identifier, with
    the same two maps, is written at 0x18c. *)
Lemma C6_counterexample :
  _modcmds (this Bench.s0) !! call_function Bench.write_ctrl3 = None /\
  _chancmds (this Bench.s0) !! call_function Bench.write_ctrl3 = Some 0x0c /\
  accesses (Bench.after Bench.write_ctrl3 Bench.s0)
  = [WriteA16D32 1%nat 0x4000 0x1cc 0x28] /\
  (forall k,
     _modcmds (this Bench.s0) !! k <> Some 0x1cc /\
     _chancmds (this Bench.s0) !! k <> Some 0x1cc) /\
  chanAddr !! 3%nat = Some 0x1c0 /\
  0x1cc = 0x1c0 + 0x0c /\
  call_function Bench.write_ctrl2 = call_function Bench.write_ctrl3 /\
  accesses (Bench.after Bench.write_ctrl2 Bench.s0)
  = [WriteA16D32 1%nat 0x4000 0x18c 0x28].
Proof.
  assert (Hd : constructed (this Bench.s0))
    by apply reachable_constructed, reachable_initial.
  split; [ vm_compute; reflexivity | ].
  split; [ vm_compute; reflexivity | ].
  split; [ vm_compute; reflexivity | ].
  split.
  { intros k. split; intros H.
    - apply (constructed_modcmds _ _ _ Hd) in H. lia.
    - apply (constructed_chancmds _ _ _ Hd) in H. lia. }
  split; [ reflexivity | ].
  split; [ reflexivity | ].
  split; [ reflexivity | vm_compute; reflexivity ].
Qed.

Lemma C7_witness :
  (exists vme vmeAddr vmeData,
     ReadA16D32 1%nat 0x4000 0x194 = ReadA16D32 vme (_base (this Bench.s_one)) vmeAddr /\
     (readRegisterA16D32 vme (_base (this Bench.s_one)) vmeAddr (bus Bench.s_one)).1
     = inr vmeData /\
     let function := reason (Bench.user 21 2) in
     let addr := (getAddress (maxAddr (base (this Bench.s_one))) (Bench.user 21 2) 0).2 in
     let x := float32_of_bits vmeData in
     let x :=
       if (function =? idx (this Bench.s_one) P_ChanImom)
          || (function =? idx (this Bench.s_one) P_ChanIset)
       then float32_of_float64 (float64_mul (float64_of_float32 x) float64_1e6)
       else x in
     params (base (this (Bench.after Bench.read_iset2 Bench.s_one)))
     = (setDoubleParam addr function (float64_of_float32 x)
          (params (base (this Bench.s_one)))).2 /\
     getDoubleParam addr function S754_nan
       (params (base (this (Bench.after Bench.read_iset2 Bench.s_one))))
     = (Bench.status_after Bench.read_iset2 Bench.s_one,
        Bench.value_after (Bench.user 21 2) S754_nan Bench.s_one)) /\
  (exists vme vmeAddr,
     let x := float32_of_float64 Bench.million in
     let x :=
       if reason (Bench.user 21 2) =? idx (this Bench.s0) P_ChanIset
       then float32_of_float64 (float64_mul (float64_of_float32 x) float64_1em6)
       else x in
     WriteA16D32 1%nat 0x4000 0x194 Bench.one_f
     = WriteA16D32 vme (_base (this Bench.s0)) vmeAddr (bits_of_float32 x)).
Proof.
  split.
  - apply (proj1 (proj2 C7_register_is_binary32)
             (Bench.user 21 2) S754_nan Bench.s_one
             (Bench.status_after Bench.read_iset2 Bench.s_one)
             (Bench.user_after Bench.read_iset2 Bench.s_one)
             (Bench.value_after (Bench.user 21 2) S754_nan Bench.s_one)
             (Bench.after Bench.read_iset2 Bench.s_one)).
    + apply bench_readFloat64_after. vm_compute. reflexivity.
    + vm_compute. reflexivity.
    + vm_compute. reflexivity.
  - apply (proj2 (proj2 C7_register_is_binary32)
             (Bench.user 21 2) Bench.million Bench.s0
             (Bench.status_after Bench.write_iset2 Bench.s0)
             (Bench.user_after Bench.write_iset2 Bench.s0)
             (Bench.after Bench.write_iset2 Bench.s0)).
    + apply bench_writeFloat64_after. vm_compute. reflexivity.
    + vm_compute. reflexivity.
Defined.

Lemma C8_witness :
  access_addr (ReadA16D32 1%nat 0x4000 0x1cc)
  = access_addr (WriteA16D32 1%nat 0x4000 0x1cc 0x28).
Proof.
  apply (C8_no_state_machine [Bench.write_iset2; Bench.read_evt3]
           (CallReadUInt32Digital (Bench.user 19 3) 0 0xff) Bench.write_ctrl3
           Bench.s0
           (Bench.after_all [Bench.write_iset2; Bench.read_evt3] Bench.s0)
           (Bench.after (CallReadUInt32Digital (Bench.user 19 3) 0 0xff) Bench.s0)
           (Bench.after Bench.write_ctrl3
              (Bench.after_all [Bench.write_iset2; Bench.read_evt3] Bench.s0))
           (Bench.status_after (CallReadUInt32Digital (Bench.user 19 3) 0 0xff) Bench.s0)
           (Bench.status_after Bench.write_ctrl3
              (Bench.after_all [Bench.write_iset2; Bench.read_evt3] Bench.s0))
           (Bench.user_after (CallReadUInt32Digital (Bench.user 19 3) 0 0xff) Bench.s0)
           (Bench.user_after Bench.write_ctrl3
              (Bench.after_all [Bench.write_iset2; Bench.read_evt3] Bench.s0))
           [@ReadA16D32 Bench.crate 1%nat 0x4000 0x1cc]
           [@WriteA16D32 Bench.crate 1%nat 0x4000 0x1cc 0x28]).
  - apply bench_exec_after. vm_compute. reflexivity.
  - apply bench_run_after. vm_compute. reflexivity.
  - apply bench_exec_after. vm_compute. reflexivity.
  - reflexivity.
  - vm_compute. reflexivity.
  - vm_compute. reflexivity.
  - vm_compute. reflexivity.
  - simpl. auto.
  - simpl. auto.
Defined.

Lemma C9_witness :
  (forall a,
     getAddress (maxAddr (base (this Bench.s0))) (call_user Bench.read_evt3) 0
     = (asynSuccess, a) ->
     0 <= a < 8 /\ is_Some (chanAddr_at a)) /\
  (forall u value mask a,
     readUInt32Digital u value mask Bench.s0 <> Undefined (ChanAddrOutOfBounds a) /\
     writeUInt32Digital u value mask Bench.s0 <> Undefined (ChanAddrOutOfBounds a)) /\
  (forall u value a,
     readFloat64 u value Bench.s0 <> Undefined (ChanAddrOutOfBounds a) /\
     writeFloat64 u value Bench.s0 <> Undefined (ChanAddrOutOfBounds a)) /\
  exec Bench.read_evt3 Bench.s0 <> None.
Proof.
  apply (@C9_chanAddr_in_bounds Bench.ieee754 Bench.crate Bench.port Bench.header
           bench_address_range Bench.read_evt3 Bench.s0).
  apply reachable_initial.
Defined.

Lemma C10_witness :
  _vme (this (Bench.after_all [Bench.write_iset2; Bench.read_evt3] Bench.s0)) = Some 1%nat /\
  _base (this (Bench.after_all [Bench.write_iset2; Bench.read_evt3] Bench.s0)) = 0x4000 /\
  forall a,
    In a (accesses (Bench.after_all [Bench.write_iset2; Bench.read_evt3] Bench.s0)) ->
    Some 1%nat = Some (access_vme a) /\ access_base a = 0x4000.
Proof.
  apply (@C10_one_instance_one_base Bench.ieee754 Bench.crate Bench.port Bench.header
           "VDS"%string 0x4000 (Some 1%nat) (fun _ => -1)
           Bench.registers Bench.t0 [Bench.write_iset2; Bench.read_evt3]).
  apply bench_run_after. vm_compute. reflexivity.
Defined.

(** ** Beyond the claims, on the bench *)

Lemma bench_register_holds (vme : nat) (ba x v : Z) (b : gmap Z Z) :
  (@writeRegisterA16D32 Bench.crate vme ba x v b).1 = None ->
  (@readRegisterA16D32 Bench.crate vme ba x
     (@writeRegisterA16D32 Bench.crate vme ba x v b).2).1 = inr v.
Proof.
  simpl. destruct (b !! (ba + x)) eqn:E; simpl; [ | discriminate ].
  intros _. rewrite lookup_insert_eq. reflexivity.
Qed.

Lemma bench_indices_distinct (q r : member) :
  idx (this Bench.s0) q = idx (this Bench.s0) r -> q = r.
Proof.
  destruct q, r; try reflexivity; vm_compute; discriminate.
Qed.

Lemma bench_constructed : constructed (this Bench.s0).
Proof. apply reachable_constructed, reachable_initial. Qed.

Lemma bench_readUInt32Digital_after (u : asynUser) (value mask : Z) (s : State) :
  Bench.returns (CallReadUInt32Digital u value mask) s = true ->
  readUInt32Digital u value mask s
  = Returned (Bench.status_after (CallReadUInt32Digital u value mask) s)
      (Bench.user_after (CallReadUInt32Digital u value mask) s)
      (Bench.uint32_after u value mask s)
      (Bench.after (CallReadUInt32Digital u value mask) s).
Proof.
  unfold Bench.returns, Bench.status_after, Bench.user_after, Bench.after,
    Bench.uint32_after, exec.
  destruct (readUInt32Digital u value mask s); [ reflexivity | discriminate ].
Qed.

Lemma bench_writeUInt32Digital_after (u : asynUser) (value mask : Z) (s : State) :
  Bench.returns (CallWriteUInt32Digital u value mask) s = true ->
  writeUInt32Digital u value mask s
  = Returned (Bench.status_after (CallWriteUInt32Digital u value mask) s)
      (Bench.user_after (CallWriteUInt32Digital u value mask) s)
      tt
      (Bench.after (CallWriteUInt32Digital u value mask) s).
Proof.
  unfold Bench.returns, Bench.status_after, Bench.user_after, Bench.after, exec.
  destruct (writeUInt32Digital u value mask s) as [status u' [] s'|];
    [ reflexivity | discriminate ].
Qed.

Lemma X1_witness :
  _modcmds (this Bench.s0) !! 10
  = snd <$> find (fun mo => idx (this Bench.s0) mo.1 =? 10) modOffsets /\
  _chancmds (this Bench.s0) !! 10
  = snd <$> find (fun mo => idx (this Bench.s0) mo.1 =? 10) chanOffsets.
Proof.
  apply (X1_first_insert_wins (this Bench.s0) 10).
  - exact bench_constructed.
  - exact (@Some_ne_None _ _).
Defined.

Lemma X2_witness :
  (forall p off, In (p, off) modOffsets ->
     _modcmds (this Bench.s0) !! idx (this Bench.s0) p = Some off /\
     _chancmds (this Bench.s0) !! idx (this Bench.s0) p = None) /\
  (forall p off, In (p, off) chanOffsets ->
     _chancmds (this Bench.s0) !! idx (this Bench.s0) p = Some off /\
     _modcmds (this Bench.s0) !! idx (this Bench.s0) p = None) /\
  size (_modcmds (this Bench.s0)) = 16%nat /\ size (_chancmds (this Bench.s0)) = 10%nat.
Proof.
  apply (X2_distinct_indices (this Bench.s0)).
  - exact bench_constructed.
  - exact (@Some_ne_None _ _).
  - exact bench_indices_distinct.
Defined.

Lemma X3_witness :
  17 = 17 /\ (_modcmds (this Bench.s0) !! 17 = None -> 3 = 3).
Proof.
  apply (X3_no_aliasing (this Bench.s0) 17 17 3 3 0x1c4).
  - exact bench_constructed.
  - vm_compute. reflexivity.
  - vm_compute. reflexivity.
Defined.

Lemma X4_witness :
  0 <= access_addr (@ReadA16D32 Bench.crate 1%nat 0x4000 0x1c4) <= 0x2e4 /\
  access_addr (@ReadA16D32 Bench.crate 1%nat 0x4000 0x1c4) mod 4 = 0.
Proof.
  apply (X4_aligned_in_window Bench.read_evt3 Bench.s0
           (Bench.after Bench.read_evt3 Bench.s0)
           (Bench.status_after Bench.read_evt3 Bench.s0)
           (Bench.user_after Bench.read_evt3 Bench.s0)
           [@ReadA16D32 Bench.crate 1%nat 0x4000 0x1c4]).
  - apply reachable_initial.
  - apply bench_exec_after. vm_compute. reflexivity.
  - vm_compute. reflexivity.
  - left. reflexivity.
Defined.

Lemma X5_witness :
  ([@ReadA16D32 Bench.crate 1%nat 0x4000 0x1c4] <> [] <->
   readonly Bench.read_evt3 Bench.s0 = false /\
   failed (getAddress (maxAddr (base (this Bench.s0))) (call_user Bench.read_evt3) 0).1
   = false /\
   exists vmeAddr,
     locate (this Bench.s0) (call_function Bench.read_evt3)
       (call_addr Bench.s0 Bench.read_evt3) = At vmeAddr) /\
  ([@ReadA16D32 Bench.crate 1%nat 0x4000 0x1c4] = [] ->
   Bench.user_after Bench.read_evt3 Bench.s0 = call_user Bench.read_evt3 /\
   Bench.after Bench.read_evt3 Bench.s0 = Bench.s0).
Proof.
  apply (X5_when_a_call_accesses Bench.read_evt3 Bench.s0
           (Bench.after Bench.read_evt3 Bench.s0)
           (Bench.status_after Bench.read_evt3 Bench.s0)).
  - apply bench_exec_after. vm_compute. reflexivity.
  - vm_compute. reflexivity.
Defined.

Lemma X6_witness :
  exists status,
    exec Bench.read_evt3 Bench.s_null
    = Some (status, call_user Bench.read_evt3, Bench.s_null) /\
    (is_read_call Bench.read_evt3 = true -> failed status = true).
Proof.
  apply (X6_without_vme_nothing_happens Bench.read_evt3 Bench.s_null).
  - apply reachable_initial.
  - reflexivity.
Defined.

Lemma X7_witness :
  exists performed,
    accesses (Bench.after_all [Bench.write_iset2; Bench.read_evt3] Bench.s0)
    = accesses Bench.s0 ++ performed /\
    (length performed <= length [Bench.write_iset2; Bench.read_evt3])%nat.
Proof.
  apply (X7_one_access_per_call [Bench.write_iset2; Bench.read_evt3] Bench.s0).
  apply bench_run_after. vm_compute. reflexivity.
Defined.

Lemma X8_witness :
  (exists vme vmeAddr,
     @WriteA16D32 Bench.crate 1%nat 0x4000 0x1cc 0x28
     = WriteA16D32 vme (_base (this Bench.s0)) vmeAddr 0x28) /\
  (thrown (bus Bench.s0) (@WriteA16D32 Bench.crate 1%nat 0x4000 0x1cc 0x28) = None ->
   let addr := (getAddress (maxAddr (base (this Bench.s0))) (Bench.user 19 3) 0).2 in
   let set :=
     setUIntDigitalParam addr (reason (Bench.user 19 3)) 0x28 0xff
       (params (base (this Bench.s0))) in
   callParamCallbacks addr addr set.2
   = (Bench.status_after Bench.write_ctrl3 Bench.s0,
      params (base (this (Bench.after Bench.write_ctrl3 Bench.s0))))).
Proof.
  apply (X8_write_ignores_mask (Bench.user 19 3) 0x28 0xff Bench.s0
           (Bench.after Bench.write_ctrl3 Bench.s0)
           (Bench.status_after Bench.write_ctrl3 Bench.s0)
           (Bench.user_after Bench.write_ctrl3 Bench.s0)).
  - apply bench_writeUInt32Digital_after. vm_compute. reflexivity.
  - vm_compute. reflexivity.
Defined.

Lemma X9_witness :
  reason (Bench.user_after Bench.read_evt3 Bench.s0) = reason (call_user Bench.read_evt3) /\
  device_addr (Bench.user_after Bench.read_evt3 Bench.s0)
  = device_addr (call_user Bench.read_evt3) /\
  (Bench.status_after Bench.read_evt3 Bench.s0 = asynSuccess ->
   errorMessage (Bench.user_after Bench.read_evt3 Bench.s0)
   = errorMessage (call_user Bench.read_evt3)) /\
  (is_read_call Bench.read_evt3 = false ->
   timestamp (Bench.user_after Bench.read_evt3 Bench.s0)
   = timestamp (call_user Bench.read_evt3)) /\
  (is_read_call Bench.read_evt3 = true ->
   Bench.status_after Bench.read_evt3 Bench.s0 = asynSuccess ->
   timestamp (Bench.user_after Bench.read_evt3 Bench.s0) = portTimeStamp Bench.s0).
Proof.
  apply (X9_what_a_call_leaves_in_the_user Bench.read_evt3 Bench.s0
           (Bench.after Bench.read_evt3 Bench.s0)).
  apply bench_exec_after. vm_compute. reflexivity.
Defined.

Lemma X10_witness :
  (Bench.status_after Bench.read_vramp_as_uint Bench.s0 = asynParamWrongType /\
   (exists vme vmeAddr vmeData,
      ReadA16D32 1%nat 0x4000 0x20 = ReadA16D32 vme (_base (this Bench.s0)) vmeAddr /\
      (readRegisterA16D32 vme (_base (this Bench.s0)) vmeAddr (bus Bench.s0)).1
      = inr vmeData /\
      Bench.status_after Bench.read_vramp_as_uint Bench.s0
      = (getUIntDigitalParam (call_addr Bench.s0 Bench.read_vramp_as_uint)
           (call_function Bench.read_vramp_as_uint) 0 0xff
           (setUIntDigitalParam (call_addr Bench.s0 Bench.read_vramp_as_uint)
              (call_function Bench.read_vramp_as_uint) vmeData 0xff
              (params (base (this Bench.s0)))).2).1) /\
   In (ArgStatus (Bench.status_after Bench.read_vramp_as_uint Bench.s0))
     (args (errorMessage (Bench.user_after Bench.read_vramp_as_uint Bench.s0))) /\
   trace (Bench.after Bench.read_vramp_as_uint Bench.s0) = trace Bench.s0) /\
  ((setUIntDigitalParam (call_addr Bench.s0 Bench.write_vramp_as_uint)
      (call_function Bench.write_vramp_as_uint) 5 0xff
      (params (base (this Bench.s0)))).1 = asynParamWrongType /\
   Bench.status_after Bench.write_vramp_as_uint Bench.s0 = asynSuccess /\
   Bench.status_after Bench.write_vramp_as_uint Bench.s0
   = (callParamCallbacks (call_addr Bench.s0 Bench.write_vramp_as_uint)
        (call_addr Bench.s0 Bench.write_vramp_as_uint)
        (setUIntDigitalParam (call_addr Bench.s0 Bench.write_vramp_as_uint)
           (call_function Bench.write_vramp_as_uint) 5 0xff
           (params (base (this Bench.s0)))).2).1).
Proof.
  assert (Hread : Bench.returns Bench.read_vramp_as_uint Bench.s0 = true)
    by (vm_compute; reflexivity).
  assert (Hwrite : Bench.returns Bench.write_vramp_as_uint Bench.s0 = true)
    by (vm_compute; reflexivity).
  split.
  - destruct (X10_parameter_failure_report Bench.read_vramp_as_uint Bench.s0
                (Bench.after Bench.read_vramp_as_uint Bench.s0)
                (Bench.status_after Bench.read_vramp_as_uint Bench.s0)
                (Bench.user_after Bench.read_vramp_as_uint Bench.s0)
                (@ReadA16D32 Bench.crate 1%nat 0x4000 0x20)
                (bench_exec_after _ _ Hread))
      as [Hstatus Hreport].
    + vm_compute. reflexivity.
    + vm_compute. reflexivity.
    + split; [ vm_compute; reflexivity | ].
      split; [ exact Hstatus | ].
      apply Hreport. vm_compute. reflexivity.
  - destruct (X10_parameter_failure_report Bench.write_vramp_as_uint Bench.s0
                (Bench.after Bench.write_vramp_as_uint Bench.s0)
                (Bench.status_after Bench.write_vramp_as_uint Bench.s0)
                (Bench.user_after Bench.write_vramp_as_uint Bench.s0)
                (@WriteA16D32 Bench.crate 1%nat 0x4000 0x20 5)
                (bench_exec_after _ _ Hwrite))
      as [Hstatus _].
    + vm_compute. reflexivity.
    + vm_compute. reflexivity.
    + split; [ vm_compute; reflexivity | ].
      split; [ vm_compute; reflexivity | exact Hstatus ].
Defined.

Lemma X11_witness :
  Bench.uint32_after (Bench.user 19 3) 0 0x0f (Bench.after Bench.write_ctrl3 Bench.s0)
  = Z.land 0x28 0x0f.
Proof.
  apply (@X11_write_then_read Bench.ieee754 Bench.crate Bench.port
           bench_register_holds bench_uint32_get_set
           (Bench.user 19 3)
           (Bench.user_after Bench.write_ctrl3 Bench.s0)
           (Bench.user_after Bench.read_ctrl3 (Bench.after Bench.write_ctrl3 Bench.s0))
           0x28 0xff 0 0x0f
           (Bench.uint32_after (Bench.user 19 3) 0 0x0f
              (Bench.after Bench.write_ctrl3 Bench.s0))
           Bench.s0
           (Bench.after Bench.write_ctrl3 Bench.s0)
           (Bench.after Bench.read_ctrl3 (Bench.after Bench.write_ctrl3 Bench.s0))).
  - replace asynSuccess with (Bench.status_after Bench.write_ctrl3 Bench.s0)
      by (vm_compute; reflexivity).
    apply bench_writeUInt32Digital_after. vm_compute. reflexivity.
  - vm_compute. reflexivity.
  - replace asynSuccess
      with (Bench.status_after Bench.read_ctrl3 (Bench.after Bench.write_ctrl3 Bench.s0))
      by (vm_compute; reflexivity).
    apply bench_readUInt32Digital_after. vm_compute. reflexivity.
Defined.

Lemma X13_witness :
  nargs initIsegVdsFuncDef
  = Z.of_nat (length [stored_buf_sval "VDS"%string; stored_buf_ival 0x4000]) /\
  exists name BA,
    [stored_buf_sval "VDS"%string; stored_buf_ival 0x4000]
    = [stored_buf_sval name; stored_buf_ival BA] /\
    initIsegVdsCallFunc [stored_buf_sval "VDS"%string; stored_buf_ival 0x4000] Bench.ioc_bare
    = Some (drvAsynIsegVdsConfigure name BA Bench.ioc_bare).2.
Proof.
  apply (X13_call_reads_what_is_declared
           [stored_buf_sval "VDS"%string; stored_buf_ival 0x4000] Bench.ioc_bare).
  repeat constructor.
Defined.

Lemma X14_witness :
  (drvAsynIsegVdsConfigure "VDS"%string 0x4000 Bench.ioc_bare).1 = asynSuccess /\
  exists d,
    ports (drvAsynIsegVdsConfigure "VDS"%string 0x4000 Bench.ioc_bare).2
    = ports Bench.ioc_bare ++ [d] /\
    _base d = 0x4000 /\
    forall b t0 cs, run cs (port_state d b t0) = Some (port_state d b t0).
Proof.
  apply (X14_configure_without_vme "VDS"%string 0x4000 Bench.ioc_bare).
  reflexivity.
Defined.

Lemma X15_witness :
  let written :=
    bits_of_float32
      (if reason (Bench.user 21 2) =? idx (this Bench.s0) P_ChanIset
       then float32_of_float64
              (float64_mul (float64_of_float32 (float32_of_float64 Bench.million))
                 float64_1em6)
       else float32_of_float64 Bench.million) in
  Bench.value_after (Bench.user 21 2) S754_nan (Bench.after Bench.write_iset2 Bench.s0) =
    float64_of_float32
      (if (reason (Bench.user 21 2) =? idx (this Bench.s0) P_ChanImom)
          || (reason (Bench.user 21 2) =? idx (this Bench.s0) P_ChanIset)
       then float32_of_float64
              (float64_mul (float64_of_float32 (float32_of_bits written)) float64_1e6)
       else float32_of_bits written).
Proof.
  apply (@X15_write_then_read_float Bench.ieee754 Bench.crate Bench.port
           bench_register_holds bench_double_get_set
           (Bench.user 21 2)
           (Bench.user_after Bench.write_iset2 Bench.s0)
           (Bench.user_after Bench.read_iset2 (Bench.after Bench.write_iset2 Bench.s0))
           Bench.million S754_nan
           (Bench.value_after (Bench.user 21 2) S754_nan
              (Bench.after Bench.write_iset2 Bench.s0))
           Bench.s0
           (Bench.after Bench.write_iset2 Bench.s0)
           (Bench.after Bench.read_iset2 (Bench.after Bench.write_iset2 Bench.s0))).
  - replace asynSuccess with (Bench.status_after Bench.write_iset2 Bench.s0)
      by (vm_compute; reflexivity).
    apply bench_writeFloat64_after. vm_compute. reflexivity.
  - vm_compute. reflexivity.
  - replace asynSuccess
      with (Bench.status_after Bench.read_iset2 (Bench.after Bench.write_iset2 Bench.s0))
      by (vm_compute; reflexivity).
    apply bench_readFloat64_after. vm_compute. reflexivity.
Defined.

Lemma X16_witness :
  (is_Some (_modcmds (this Bench.s0) !! call_function Bench.read_evt3) ->
   0 <= access_addr (@ReadA16D32 Bench.crate 1%nat 0x4000 0x1c4) <= 0x4c) /\
  (_modcmds (this Bench.s0) !! call_function Bench.read_evt3 = None ->
   0 <= call_addr Bench.s0 Bench.read_evt3 < 8 /\
   0x100 + 0x40 * call_addr Bench.s0 Bench.read_evt3
   <= access_addr (@ReadA16D32 Bench.crate 1%nat 0x4000 0x1c4)
   <= 0x100 + 0x40 * call_addr Bench.s0 Bench.read_evt3 + 0x24).
Proof.
  apply (X16_channel_isolation Bench.read_evt3 Bench.s0
           (Bench.after Bench.read_evt3 Bench.s0)
           (Bench.status_after Bench.read_evt3 Bench.s0)
           (Bench.user_after Bench.read_evt3 Bench.s0)
           [@ReadA16D32 Bench.crate 1%nat 0x4000 0x1c4]).
  - apply reachable_initial.
  - apply bench_exec_after. vm_compute. reflexivity.
  - vm_compute. reflexivity.
  - left. reflexivity.
Defined.
